(** * AutoTestGenAI: the response parser and the spreadsheet projector

    A shallow embedding of [core/generator.py]: the prompt builder, the
    component-name extraction, the markdown-table parser and the routine that
    fills the spreadsheet template, together with the properties the
    specification states about them.

    Conventions.
    - A Python [str] is a [string]; one [ascii] stands for one code point
      below U+0100.  The character classes below ([is_space], [is_linebreak],
      [lower_char]) are the ones CPython uses on that range.
    - A Rocq string literal has no escapes: ["\n"] is the two characters
      backslash and n (Python's ["\\n"]); the line feed is [LF].
    - A [dict] is a [gmap string string]; a worksheet is a [gmap] from
      (row, column) to the cell's value, an absent key being an empty cell.
    - A raised exception is the [Raise] branch of [result]. *)

From Stdlib Require Import Ascii String NArith Lia.
From stdpp Require Import gmap strings list fin_maps.

(** ** Python's [str] primitives *)

Module PyStr.

Definition LF : ascii := "010"%char.
Definition CR : ascii := "013"%char.
Definition NL : string := String LF "".

Definition code (c : ascii) : N := N_of_ascii c.

Definition between (lo hi n : N) : bool := ((lo <=? n) && (n <=? hi))%N.

(** [str.isspace] on one character, which is also the class [\s] of [re]. *)
Definition is_space (c : ascii) : bool :=
  let n := code c in
  between 9 13 n || between 28 31 n || (n =? 32)%N || (n =? 133)%N
  || (n =? 160)%N.

(** The line boundaries of [str.splitlines]. *)
Definition is_linebreak (c : ascii) : bool :=
  let n := code c in
  between 10 13 n || between 28 30 n || (n =? 133)%N.

(** [str.lower] on one character. *)
Definition lower_char (c : ascii) : ascii :=
  let n := code c in
  if between 65 90 n || (between 192 222 n && negb (n =? 215)%N)
  then ascii_of_N (n + 32) else c.

Fixpoint lower (s : string) : string :=
  match s with
  | "" => ""
  | String c s' => String (lower_char c) (lower s')
  end.

(** [strip_prefix p s] is the rest of [s] after its prefix [p]. *)
Fixpoint strip_prefix (p s : string) : option string :=
  match p, s with
  | "", _ => Some s
  | String a p', String b s' =>
      if Ascii.eqb a b then strip_prefix p' s' else None
  | String _ _, "" => None
  end.

(** [s.startswith(p)] *)
Definition startswith (s p : string) : bool :=
  match strip_prefix p s with Some _ => true | None => false end.

(** [sub in s] *)
Fixpoint str_in (sub s : string) : bool :=
  startswith s sub
  || match s with "" => false | String _ s' => str_in sub s' end.

(** [s.replace(old, new)] for a non-empty [old], as at both call sites:
    the occurrences are replaced from left to right, without overlap.
    The fuel is the length of [s], which [replace_cons] shows to be
    enough. *)
Fixpoint replace_fuel (fuel : nat) (old new s : string) : string :=
  match fuel with
  | 0 => s
  | S fuel' =>
      match s with
      | "" => ""
      | String c s' =>
          match strip_prefix old s with
          | Some rest => new +:+ replace_fuel fuel' old new rest
          | None => String c (replace_fuel fuel' old new s')
          end
      end
  end.

Definition replace (old new s : string) : string :=
  replace_fuel (String.length s) old new s.

(** [s.lstrip()], [s.rstrip()], [s.strip()] *)
Fixpoint lstrip (s : string) : string :=
  match s with
  | "" => ""
  | String c s' => if is_space c then lstrip s' else s
  end.

Fixpoint rstrip (s : string) : string :=
  match s with
  | "" => ""
  | String c s' =>
      match rstrip s' with
      | "" => if is_space c then "" else String c ""
      | r => String c r
      end
  end.

Definition strip (s : string) : string := rstrip (lstrip s).

(** [s.rstrip(chars)] for a one-character [chars]. *)
Fixpoint rstrip_char (ch : ascii) (s : string) : string :=
  match s with
  | "" => ""
  | String c s' =>
      match rstrip_char ch s' with
      | "" => if Ascii.eqb c ch then "" else String c ""
      | r => String c r
      end
  end.

(** [s.split(sep)] for a one-character separator: never empty, one more
    piece than there are separators. *)
Fixpoint split (sep : ascii) (s : string) : list string :=
  match s with
  | "" => [""]
  | String c s' =>
      if Ascii.eqb c sep then "" :: split sep s'
      else match split sep s' with
           | [] => [String c ""]
           | x :: xs => String c x :: xs
           end
  end.

(** [s.split(sep, 1)] *)
Fixpoint split_once (sep : ascii) (s : string) : list string :=
  match s with
  | "" => [""]
  | String c s' =>
      if Ascii.eqb c sep then [""; s']
      else match split_once sep s' with
           | [] => [String c ""]
           | x :: xs => String c x :: xs
           end
  end.

(** [sep.join(pieces)] for a one-character separator. *)
Fixpoint join (sep : ascii) (pieces : list string) : string :=
  match pieces with
  | [] => ""
  | [x] => x
  | x :: rest => x +:+ String sep (join sep rest)
  end.

(** [s.splitlines()]: a line ends at each line boundary, CR LF counting
    as one; no empty last line after a final boundary.  [after_cr] tells
    that the previous character was a CR that ended a line. *)
Fixpoint splitlines_from (after_cr : bool) (s : string) : list string :=
  match s with
  | "" => []
  | String c s' =>
      if after_cr && Ascii.eqb c LF then splitlines_from false s'
      else if is_linebreak c then "" :: splitlines_from (Ascii.eqb c CR) s'
      else match splitlines_from false s' with
           | [] => [String c ""]
           | l :: ls => String c l :: ls
           end
  end.

Definition splitlines (s : string) : list string := splitlines_from false s.

(** [l[1:-1]] *)
Definition slice_1_m1 {A} (l : list A) : list A :=
  drop 1 (take (length l - 1) l).

(** [dict(pairs)]: a later pair overrides an earlier one with its key. *)
Definition dict (pairs : list (string * string)) : gmap string string :=
  foldl (fun m kv => <[kv.1 := kv.2]> m) ∅ pairs.

End PyStr.

Import PyStr.

(** ** The fragment of [re] that [extract_component] uses

    A pattern is a sequence of nodes matched by backtracking, in the order
    of preference of Python's engine: a greedy star tries the longest run
    first, a lazy plus the shortest, and [search] returns the first match of
    the leftmost start position.  The result of a match is the text of
    group 1. *)

Module Re.

Inductive node :=
| Bol                                (* ^ under MULTILINE *)
| Eol                                (* $ under MULTILINE *)
| Chr (c : ascii)                    (* a literal, under IGNORECASE *)
| Star (cls : ascii -> bool)         (* cls* , greedy *)
| Group1PlusLazy (cls : ascii -> bool). (* (cls+?) , group 1 *)

(** [\s] and [.] (without DOTALL). *)
Definition space : ascii -> bool := is_space.
Definition dot (c : ascii) : bool := negb (Ascii.eqb c LF).

Fixpoint lit (s : string) : list node :=
  match s with
  | "" => []
  | String c s' => Chr c :: lit s'
  end.

Definition at_bol (prev : option ascii) : bool :=
  match prev with
  | None => true
  | Some c => Ascii.eqb c LF
  end.

Definition at_eol (s : string) : bool :=
  match s with
  | "" => true
  | String c _ => Ascii.eqb c LF
  end.

(** The continuation [k] matches the rest of the pattern; it gets the
    character before the position, the text of group 1 and the rest of
    the subject. *)
Definition cont := option ascii -> string -> string -> option string.

Fixpoint star_greedy (cls : ascii -> bool) (k : cont)
    (prev : option ascii) (cap s : string) : option string :=
  match s with
  | "" => k prev cap s
  | String c s' =>
      if cls c then
        match star_greedy cls k (Some c) cap s' with
        | Some r => Some r
        | None => k prev cap s
        end
      else k prev cap s
  end.

Fixpoint plus_lazy (cls : ascii -> bool) (k : cont)
    (cap s : string) : option string :=
  match s with
  | "" => None
  | String c s' =>
      if cls c then
        let cap' := cap +:+ String c "" in
        match k (Some c) cap' s' with
        | Some r => Some r
        | None => plus_lazy cls k cap' s'
        end
      else None
  end.

Fixpoint match_here (pat : list node) : cont :=
  fun prev cap s =>
  match pat with
  | [] => Some cap
  | Bol :: pat' => if at_bol prev then match_here pat' prev cap s else None
  | Eol :: pat' => if at_eol s then match_here pat' prev cap s else None
  | Chr c :: pat' =>
      match s with
      | "" => None
      | String d s' =>
          if Ascii.eqb (lower_char d) (lower_char c)
          then match_here pat' (Some d) cap s' else None
      end
  | Star cls :: pat' => star_greedy cls (match_here pat') prev cap s
  | Group1PlusLazy cls :: pat' => plus_lazy cls (match_here pat') "" s
  end.

(** [re.search]: the start positions from left to right. *)
Fixpoint search_from (pat : list node) (prev : option ascii) (s : string)
    : option string :=
  match match_here pat prev "" s with
  | Some r => Some r
  | None =>
      match s with
      | "" => None
      | String c s' => search_from pat (Some c) s'
      end
  end.

Definition search (pat : list node) (s : string) : option string :=
  search_from pat None s.

End Re.

(** ** [core/generator.py] *)

(** *** Step 2: the prompt *)

(** The instruction block of [build_prompt], one line of the source per
    line; [ln] closes a piece with the line feed the source writes as a
    backslash escape.  The symbols of the block that lie above U+00FF (the
    bullet and three pictographs) are kept here as the bytes of their
    UTF-8 form. *)
Definition ln (s : string) : string := s +:+ NL.

Definition INSTRUCTIONS : string :=
  ln "Read the uploaded Software Requirements Specification (SRS.docx)." +:+
  ln "You MUST output exactly two parts in this order:" +:+
  ln "1) A single line in the exact format:" +:+
  ln "   Component: <detected overall component/module/system name from the SRS>" +:+
  ln "   (Put only this line first. No code fences, no extra text before it.)" +:+
  ln (ln "2) A blank line, followed immediately by a single markdown table of test cases.") +:+
  ln "⚠️ IMPORTANT: Generate the **maximum possible coverage of test cases** from the SRS." +:+
  ln "- Include **all functional test cases** (for every requirement, feature, rule, and exception)." +:+
  ln "- Include **all non-functional test cases**:" +:+
  ln "  • Performance" +:+
  ln "  • Usability" +:+
  ln "  • Security" +:+
  ln "  • Reliability" +:+
  ln "  • Compatibility" +:+
  ln "  • Accessibility" +:+
  ln "  • Compliance" +:+
  ln "  • Installation" +:+
  ln "  • Recovery" +:+
  ln "- Include **negative test cases** (invalid inputs, boundary conditions, failure handling)." +:+
  ln "- Include **edge cases, stress cases, and corner cases**." +:+
  ln "- Include **ad-hoc / exploratory test cases**." +:+
  ln "- Include **data validation test cases**." +:+
  ln "- Include **integration test cases**." +:+
  ln "- Include **regression test cases**." +:+
  ln "- Include **accessibility test cases**." +:+
  ln (ln "- Do not skip any scenario implied in the SRS.") +:+
  ln "🚨 MANDATORY REQUIREMENT:" +:+
  ln "- You MUST include a **separate set of test cases dedicated to IPv4 and IPv6**." +:+
  ln "- Cover IPv4 only, IPv6 only, dual-stack, fallback, invalid IPs," +:+
  ln (ln "  performance comparison and security scenarios.") +:+
  ln "✅ You MUST generate **at least 200 test cases** if the SRS is moderately detailed." +:+
  ln (ln "If the SRS is short, extrapolate plausible scenarios.") +:+
  ln "Number test cases sequentially as `TC001`, `TC002`, etc." +:+
  ln (ln "All test cases must be in ONE continuous markdown table.") +:+
  ln "Return the markdown table with columns exactly named:" +:+
  "`Test Case ID` | `Preconditions` | `Test Condition` | " +:+
  "`Steps with description` | `Expected Result` | " +:+
  ln (ln "`Actual Result` | `Remarks`") +:+
  ln "SRS Content:".

Definition build_prompt (srs_text : string) : string :=
  INSTRUCTIONS +:+ srs_text.

(** *** Step 4: the component name *)

(** [(?im)^\s*Component\s*:\s*(.+?)\s*$] *)
Definition COMPONENT_RE : list Re.node :=
  [Re.Bol; Re.Star Re.space] ++ Re.lit "Component" ++
  [Re.Star Re.space; Re.Chr ":"; Re.Star Re.space;
   Re.Group1PlusLazy Re.dot; Re.Star Re.space; Re.Eol].

Definition extract_component (md_full_text : string) : string :=
  match Re.search COMPONENT_RE md_full_text with
  | Some group1 => strip group1
  | None => "Unknown"
  end.

(** *** Exceptions *)

Inductive exn :=
| ValueError (msg : string)
| KeyError (key : string)
| FileNotFoundError (path : string)
| IllegalCharacterError (value : string)
| OSError (reason : string).

Inductive result (A : Type) :=
| Ok (a : A)
| Raise (e : exn).
Arguments Ok {A} a.
Arguments Raise {A} e.

(** The three failures of the parser, under the names the specification
    gives them. *)
Definition TableNotFoundError : exn :=
  ValueError "Markdown table header not found.".
Definition IncompleteTableError : exn :=
  ValueError "Incomplete markdown table.".
Definition EmptyResultError : exn :=
  ValueError "No test cases parsed.".

(** *** Step 5: the markdown table *)

Definition clean_cell (value : string) : string :=
  match value with
  | "" => ""
  | _ => strip (replace "\n" NL (replace "<br>" NL value))
  end.

(** The first loop: the index of the first line with a separator and the
    header token. *)
Definition is_header_line (line : string) : bool :=
  str_in "|" line && str_in "Test Case ID" line.

Fixpoint find_header (i : nat) (lines : list string) : option nat :=
  match lines with
  | [] => None
  | line :: rest =>
      if is_header_line line then Some i else find_header (S i) rest
  end.

(** The second loop: lines with a separator are collected, and the first
    line without one after a collected line ends the loop. *)
Fixpoint collect_table (table_lines lines : list string) : list string :=
  match lines with
  | [] => table_lines
  | line :: rest =>
      if str_in "|" line then collect_table (table_lines ++ [line]) rest
      else match table_lines with
           | [] => collect_table table_lines rest
           | _ :: _ => table_lines
           end
  end.

(** [row.split("|")[1:-1]] *)
Definition row_segments (row : string) : list string :=
  slice_1_m1 (split "|" row).

Definition header_fields (line : string) : list string :=
  strip <$> row_segments line.

Definition row_cells (row : string) : list string :=
  clean_cell <$> row_segments row.

(** The body of the third loop. *)
Definition add_row (headers : list string)
    (test_cases : list (gmap string string)) (row : string)
    : list (gmap string string) :=
  let cells := row_cells row in
  if length cells =? length headers
  then test_cases ++ [dict (zip headers cells)]
  else test_cases.

Definition parse_markdown_table (md_full_text : string)
    : result (list (gmap string string)) :=
  let lines := splitlines md_full_text in
  match find_header 0 lines with
  | None => Raise TableNotFoundError
  | Some start_idx =>
      let table_lines := collect_table [] (drop start_idx lines) in
      if length table_lines <? 3 then Raise IncompleteTableError
      else
        let headers := header_fields (nth 0 table_lines "") in
        let test_cases := foldl (add_row headers) [] (drop 2 table_lines) in
        match test_cases with
        | [] => Raise EmptyResultError
        | _ :: _ => Ok test_cases
        end
  end.

(** *** Step 6: the spreadsheet *)

(** The value of a cell that is not empty: a string or something else
    (a number, a date). *)
Inductive value :=
| VStr (s : string)
| VNum (n : Z).

Abbreviation worksheet := (gmap (nat * nat) value).
Abbreviation workbook := (gmap string worksheet).
Abbreviation files := (gmap string workbook).

(** What openpyxl does with a string that is assigned to a cell
    ([Cell.check_string]): it keeps the first 32767 characters, and raises
    when these hold a control character other than tab, line feed and
    carriage return (the class [[\000-\010]|[\013-\014]|[\016-\037]]). *)
Definition is_illegal_char (c : ascii) : bool :=
  let n := code c in
  between 0 8 n || between 11 12 n || between 14 31 n.

Fixpoint has_illegal_char (s : string) : bool :=
  match s with
  | "" => false
  | String c s' => is_illegal_char c || has_illegal_char s'
  end.

(** [s[:n]] *)
Fixpoint str_take (n : N) (s : string) : string :=
  match s with
  | "" => ""
  | String c s' => if (n =? 0)%N then "" else String c (str_take (N.pred n) s')
  end.

Definition check_string (value : string) : result string :=
  let value := str_take 32767 value in
  if has_illegal_char value then Raise (IllegalCharacterError value)
  else Ok value.

(** One statement after the other, an exception ending the sequence. *)
#[global] Instance result_bind : MBind result :=
  fun A B k r => match r with Ok a => k a | Raise e => Raise e end.

#[global] Instance result_fmap : FMap result :=
  fun A B f r => match r with Ok a => Ok (f a) | Raise e => Raise e end.

(** [ws.cell(row=.., column=.., value=v)] of openpyxl: the cell is assigned
    only when [v] is not [None], and the assignment of a string goes
    through [check_string]. *)
Definition cell_assign (ws : worksheet) (row column : nat)
    (v : option string) : result worksheet :=
  match v with
  | Some s =>
      text ← check_string s; Ok (<[(row, column) := VStr text]> ws)
  | None => Ok ws
  end.

(** [set_header]: the two loops, a [Some] being the early [return True]
    with the sheet as rewritten; the assignment [cell.value = ...] goes
    through [check_string] too. *)
Definition is_label_cell (label_low : string) (v : option value) : bool :=
  match v with
  | Some (VStr s) => startswith (lower s) (label_low +:+ ":")
  | _ => false
  end.

Definition relabel (old value : string) : string :=
  hd "" (split_once ":" old) +:+ ": " +:+ value.

Fixpoint set_header_cols (label_low value : string) (ws : worksheet)
    (r : nat) (cols : list nat) : result (option worksheet) :=
  match cols with
  | [] => Ok None
  | c :: cols' =>
      match ws !! (r, c) with
      | Some (VStr s) =>
          if startswith (lower s) (label_low +:+ ":")
          then
            text ← check_string (relabel s value);
            Ok (Some (<[(r, c) := VStr text]> ws))
          else set_header_cols label_low value ws r cols'
      | _ => set_header_cols label_low value ws r cols'
      end
  end.

Fixpoint set_header_rows (label_low value : string) (ws : worksheet)
    (rows cols : list nat) : result (option worksheet) :=
  match rows with
  | [] => Ok None
  | r :: rows' =>
      found ← set_header_cols label_low value ws r cols;
      match found with
      | Some ws' => Ok (Some ws')
      | None => set_header_rows label_low value ws rows' cols
      end
  end.

Definition set_header (label value : string) (ws : worksheet)
    : result (worksheet * bool) :=
  let label_low := rstrip_char ":" (lower label) in
  found ← set_header_rows label_low value ws (seq 1 9) (seq 1 11);
  match found with
  | Some ws' => Ok (ws', true)
  | None => Ok (ws, false)
  end.

(** [if not set_header("Component", component_name): ws["E2"] = ...] *)
Definition inject_component (component_name : string) (ws : worksheet)
    : result worksheet :=
  '(ws', found) ← set_header "Component" component_name ws;
  if (found : bool) then Ok ws'
  else cell_assign ws' 2 5 (Some ("Component: " +:+ component_name)).

Definition start_row : nat := 6.

Definition write_row (ws : worksheet) (row : nat) (tc : gmap string string)
    : result worksheet :=
  ws ← cell_assign ws row 2 (tc !! "Test Case ID");
  ws ← cell_assign ws row 3 (tc !! "Preconditions");
  ws ← cell_assign ws row 4 (tc !! "Test Condition");
  ws ← cell_assign ws row 5 (tc !! "Steps with description");
  ws ← cell_assign ws row 6 (tc !! "Expected Result");
  ws ← cell_assign ws row 7 (tc !! "Actual Result");
  cell_assign ws row 8 (tc !! "Remarks").

(** [for i, tc in enumerate(test_cases)] *)
Fixpoint fill_rows (ws : worksheet) (i : nat)
    (test_cases : list (gmap string string)) : result worksheet :=
  match test_cases with
  | [] => Ok ws
  | tc :: rest =>
      ws ← write_row ws (start_row + i) tc; fill_rows ws (S i) rest
  end.

(** The files are the state: [load_workbook] reads the template (an
    exception when there is no such file), [wb["Testcases"]] takes the
    sheet (openpyxl's [KeyError] when the workbook has none of that name),
    and [wb.save] binds the output path to the filled workbook.  Whether
    the operating system lets the output path be written (the directory is
    there, the path may be written) is not for the code to decide:
    [write_error] gives the exception that [wb.save] raises for a path, if
    any. *)
Definition fill_excel_template (write_error : string -> option exn)
    (test_cases : list (gmap string string))
    (template_path output_path component_name : string) (fs : files)
    : result files :=
  match fs !! template_path with
  | None => Raise (FileNotFoundError template_path)
  | Some wb =>
      match wb !! "Testcases" with
      | None => Raise (KeyError "Worksheet Testcases does not exist.")
      | Some ws =>
          ws ← inject_component component_name ws;
          ws ← fill_rows ws 0 test_cases;
          match write_error output_path with
          | Some e => Raise e
          | None => Ok (<[output_path := <["Testcases" := ws]> wb]> fs)
          end
      end
  end.

(** The seven columns, in the order of the sheet. *)
Definition FIELDS : list string :=
  ["Test Case ID"; "Preconditions"; "Test Condition";
   "Steps with description"; "Expected Result"; "Actual Result"; "Remarks"].

(** *** Step 1: the text of the requirements document *)

(** What is raised outside steps 4 to 6: the exceptions of the document
    reader and of the HTTP client, besides the built-in ones. *)
Inductive raised :=
| Exn (e : exn)
| PackageNotFoundError (path : string)
| RequestException (reason : string)
| HTTPError (status_code : nat).

Inductive outcome (A : Type) :=
| Done (a : A)
| Failed (e : raised).
Arguments Done {A} a.
Arguments Failed {A} e.

(** A document is the list of the texts of its paragraphs, which is all
    that [extract_srs_text] reads of it.  Documents and workbooks are kept
    in two stores: a path names a file of one kind. *)
Abbreviation documents := (gmap string (list string)).

(** [docx.Document(doc_path)] raises when there is no such package;
    [para.text.strip()] is true when it is not empty. *)
Definition extract_srs_text (docs : documents) (doc_path : string)
    : outcome string :=
  match docs !! doc_path with
  | None => Failed (PackageNotFoundError doc_path)
  | Some paragraphs =>
      Done (join LF (filter (fun text => strip text <> "") paragraphs))
  end.

(** *** Step 3: the generation service *)

(** The request of [requests.post]: the address, the JSON payload, the
    headers and the timeout.  The temperature is the decimal text of the
    number. *)
Record message := { msg_role : string; msg_content : string }.

Record payload := {
  pl_model : string;
  pl_max_tokens : N;
  pl_temperature : string;
  pl_messages : list message }.

Record request := {
  rq_url : string;
  rq_json : payload;
  rq_headers : gmap string string;
  rq_timeout : nat }.

(** The reply: no response at all (a transport failure or a timeout, which
    [requests] raises), or a status code with the body.  The body is taken
    to have the form the service documents: an object whose "content",
    when it is there, is a list of blocks, a block being an object with
    string values. *)
Inductive reply :=
| NoResponse (reason : string)
| Response (status_code : nat) (content : option (list (gmap string string))).

(** The generator inside [join]: the texts of the blocks whose type is
    "text", in order; [block["text"]] raises when the key is missing. *)
Fixpoint text_blocks (blocks : list (gmap string string))
    : result (list string) :=
  match blocks with
  | [] => Ok []
  | block :: rest =>
      if decide (block !! "type" = Some "text") then
        match block !! "text" with
        | None => Raise (KeyError "text")
        | Some text =>
            match text_blocks rest with
            | Ok texts => Ok (text :: texts)
            | Raise e => Raise e
            end
        end
      else text_blocks rest
  end.

Definition claude_request (api_key prompt : string) : request :=
  {| rq_url := "https://api.anthropic.com/v1/messages";
     rq_json :=
       {| pl_model := "claude-3-7-sonnet-20250219";
          pl_max_tokens := 8000%N;
          pl_temperature := "0.3";
          pl_messages := [ {| msg_role := "user"; msg_content := prompt |} ] |};
     rq_headers :=
       {[ "x-api-key" := api_key;
          "anthropic-version" := "2023-06-01";
          "content-type" := "application/json" ]};
     rq_timeout := 120 |}.

(** The environment, the service and the requests made so far are the
    state; the result comes with the requests made after the call.
    [raise_for_status] raises for the codes 400 to 599. *)
Definition get_testcases_from_claude (environ : gmap string string)
    (service : request -> reply) (made : list request) (srs_text : string)
    : outcome string * list request :=
  match environ !! "ANTHROPIC_API_KEY" with
  | None | Some "" =>
      (Failed (Exn (ValueError
         "Missing Anthropic API key. Set ANTHROPIC_API_KEY environment variable.")),
       made)
  | Some api_key =>
      let prompt := build_prompt srs_text in
      let req := claude_request api_key prompt in
      match service req with
      | NoResponse reason => (Failed (RequestException reason), made ++ [req])
      | Response status_code content =>
          if (400 <=? status_code) && (status_code <? 600)
          then (Failed (HTTPError status_code), made ++ [req])
          else
            match text_blocks (default [] content) with
            | Ok texts => (Done (join LF texts), made ++ [req])
            | Raise e => (Failed (Exn e), made ++ [req])
            end
      end
  end.

(** *** The public function *)

(** The two stores have no path in common: a path names a document or a
    workbook.  Saving the workbook at the output path replaces what was
    there, so that path leaves the store of documents. *)
Record world := {
  w_docs : documents;
  w_environ : gmap string string;
  w_made : list request;
  w_files : files }.

Definition generate_testcases (service : request -> reply)
    (write_error : string -> option exn)
    (srs_path template_path output_path : string) (w : world)
    : outcome unit * world :=
  match extract_srs_text (w_docs w) srs_path with
  | Failed e => (Failed e, w)
  | Done srs_text =>
      let '(r, made) :=
        get_testcases_from_claude (w_environ w) service (w_made w) srs_text in
      let w1 := {| w_docs := w_docs w; w_environ := w_environ w;
                   w_made := made; w_files := w_files w |} in
      match r with
      | Failed e => (Failed e, w1)
      | Done md_full =>
          let component := extract_component md_full in
          match parse_markdown_table md_full with
          | Raise e => (Failed (Exn e), w1)
          | Ok test_cases =>
              match fill_excel_template write_error test_cases template_path
                      output_path component (w_files w1) with
              | Raise e => (Failed (Exn e), w1)
              | Ok fs =>
                  (Done tt,
                   {| w_docs := delete output_path (w_docs w1);
                      w_environ := w_environ w1;
                      w_made := w_made w1; w_files := fs |})
              end
          end
      end
  end.

(** ** The vocabulary of the properties *)

(** What lies after the block of lines with a separator: nothing, or a
    line without one. *)
Definition ends_block (post : list string) : Prop :=
  match post with
  | [] => True
  | l :: _ => str_in "|" l = false
  end.

Definition kept_row (headers : list string) (row : string) : Prop :=
  length (row_cells row) = length headers.

#[global] Instance kept_row_dec headers row : Decision (kept_row headers row).
Proof. unfold kept_row. apply _. Defined.

Definition record (headers : list string) (row : string)
    : gmap string string :=
  dict (zip headers (row_cells row)).

(** Scenario B of the specification. *)
Definition SCENARIO_B : string :=
  ln "Component: Login" +:+
  ln "" +:+
  ln "| Test Case ID | Preconditions | Test Condition | Steps with description | Expected Result | Actual Result | Remarks |" +:+
  ln "|---|---|---|---|---|---|---|" +:+
  "| TC001 | None | Valid login | Enter creds | Success | | |".

(** Scenario C: the second data row has six cells. *)
Definition SCENARIO_C : string :=
  ln SCENARIO_B +:+
  ln "| TC002 | None | Bad login | Enter junk | Failure | |" +:+
  ln "" +:+
  "That is the whole table.".

(** Every character of a string is in a class. *)
Fixpoint all_chars (cls : ascii -> bool) (s : string) : bool :=
  match s with
  | "" => true
  | String c s' => cls c && all_chars cls s'
  end.

(** The region [set_header] scans, its order, and the cells it looks for. *)
Definition in_region (p : nat * nat) : Prop :=
  (1 <= p.1 <= 9) /\ (1 <= p.2 <= 11).

Definition scanned_before (q p : nat * nat) : Prop :=
  q.1 < p.1 \/ (q.1 = p.1 /\ q.2 < p.2).

Definition is_component_cell (ws : worksheet) (p : nat * nat) : bool :=
  is_label_cell "component" (ws !! p).



(** A template whose data region is not blank, and a record that has only
    one of the seven fields. *)
Definition USED_TEMPLATE : files :=
  {[ "templates/TestCases_Template.xlsx" :=
       {[ "Testcases" :=
            {[ (2, 5) := VStr "Component:"; (6, 3) := VStr "n/a" ]} ]} ]}.



(** A row as markdown writes it: the cells between separators, with one
    separator in front and one behind. *)
Definition framed_row (cells : list string) : string :=
  "|" +:+ join "|" cells +:+ "|".

(** The result of the parser on lines that begin with a header line. *)
Definition parse_block (lines : list string)
    : result (list (gmap string string)) :=
  let table_lines := collect_table [] lines in
  if length table_lines <? 3 then Raise IncompleteTableError
  else
    let headers := header_fields (nth 0 table_lines "") in
    let test_cases := foldl (add_row headers) [] (drop 2 table_lines) in
    match test_cases with
    | [] => Raise EmptyResultError
    | _ :: _ => Ok test_cases
    end.

(** The texts of the blocks of type "text", in order. *)
Definition block_texts (blocks : list (gmap string string)) : list string :=
  omap (fun block =>
          if decide (block !! "type" = Some "text")
          then block !! "text" else None) blocks.

(** A status code for which [raise_for_status] raises. *)
Definition is_error_status (status_code : nat) : Prop :=
  400 <= status_code < 600.

(** Scenario A: a document with two paragraphs of text and two blank
    ones. *)
Definition SCENARIO_A_DOCS : documents :=
  {[ "jobs/1/SRS.docx" :=
       ["Login module"; "  "; "Must support IPv4 and IPv6"; ""] ]}.

(** An environment with a key, and a service that answers every request
    with two blocks of text around a block of another type. *)
Definition WITH_KEY : gmap string string :=
  {[ "ANTHROPIC_API_KEY" := "sk-1" ]}.

Definition THREE_BLOCKS : list (gmap string string) :=
  [ {[ "type" := "text"; "text" := "Component: Login" ]};
    {[ "type" := "tool_use"; "id" := "t1" ]};
    {[ "type" := "text"; "text" := "| Test Case ID |" ]} ].

(** A job: the document of scenario A, a key, no request made yet, and
    the template; and a service that answers with scenario B, or with
    nothing to read. *)
Definition JOB : world :=
  {| w_docs := SCENARIO_A_DOCS; w_environ := WITH_KEY; w_made := [];
     w_files := USED_TEMPLATE |}.

Definition ANSWERS_SCENARIO_B (req : request) : reply :=
  Response 200 (Some [ {[ "type" := "text"; "text" := SCENARIO_B ]} ]).

Definition ANSWERS_NOTHING (req : request) : reply := Response 200 None.

(** What [check_string] keeps of a string, and the strings it accepts. *)
Definition cut (s : string) : string := str_take 32767 s.

Definition storable (s : string) : Prop := has_illegal_char (cut s) = false.

(** The sheet with a value put into a cell, a row of values put into its
    cells, and the rows of a list of records put from a row on: what the
    assignments of [write_row] and [fill_rows] come to when none raises. *)
Definition put (ws : worksheet) (row column : nat) (v : option string)
    : worksheet :=
  match v with
  | Some s => <[(row, column) := VStr (cut s)]> ws
  | None => ws
  end.

Definition put_row (ws : worksheet) (row : nat) (tc : gmap string string)
    : worksheet :=
  let ws := put ws row 2 (tc !! "Test Case ID") in
  let ws := put ws row 3 (tc !! "Preconditions") in
  let ws := put ws row 4 (tc !! "Test Condition") in
  let ws := put ws row 5 (tc !! "Steps with description") in
  let ws := put ws row 6 (tc !! "Expected Result") in
  let ws := put ws row 7 (tc !! "Actual Result") in
  put ws row 8 (tc !! "Remarks").

Fixpoint put_rows (ws : worksheet) (i : nat)
    (test_cases : list (gmap string string)) : worksheet :=
  match test_cases with
  | [] => ws
  | tc :: rest => put_rows (put_row ws (start_row + i) tc) (S i) rest
  end.

(** Every value that a list of records has for one of the seven fields. *)
Definition field_values_storable
    (test_cases : list (gmap string string)) : Prop :=
  forall tc field v,
    tc ∈ test_cases -> field ∈ FIELDS -> tc !! field = Some v -> storable v.

(** An operating system that lets every path be written, and one that
    lets none. *)
Definition WRITES_ALL (path : string) : option exn := None.

Definition WRITES_NONE (path : string) : option exn :=
  Some (FileNotFoundError path).

(** A name with the control character U+0001 in it. *)
Definition BAD_NAME : string := "a" +:+ String "001" "b".




(** The sheet of [USED_TEMPLATE]. *)
Definition USED_SHEET : worksheet :=
  {[ (2, 5) := VStr "Component:"; (6, 3) := VStr "n/a" ]}.

Definition USED_WORKBOOK : workbook := {[ "Testcases" := USED_SHEET ]}.

(** [field_values_storable], by computation. *)
Definition all_storable (test_cases : list (gmap string string)) : bool :=
  forallb
    (fun tc : gmap string string =>
       forallb
         (fun field =>
            match tc !! field with
            | Some v => negb (has_illegal_char (cut v))
            | None => true
            end)
         FIELDS)
    test_cases.

(** * Properties *)

(** ** Strings *)

Section StrFacts.

Lemma sapp_nil_l (s : string) : "" +:+ s = s.
Proof. reflexivity. Qed.

Lemma sapp_cons (c : ascii) (s t : string) :
  String c s +:+ t = String c (s +:+ t).
Proof. reflexivity. Qed.

Lemma sapp_nil_r (s : string) : s +:+ "" = s.
Proof. induction s as [|c s IH]; [done|]. by rewrite sapp_cons, IH. Qed.

Lemma sapp_assoc (s t u : string) : (s +:+ t) +:+ u = s +:+ t +:+ u.
Proof. induction s as [|c s IH]; [done|]. by rewrite !sapp_cons, IH. Qed.

Lemma sapp_length (s t : string) :
  String.length (s +:+ t) = String.length s + String.length t.
Proof. induction s as [|c s IH]; [done|]. rewrite sapp_cons. simpl. lia. Qed.

Lemma strip_prefix_Some (p s r : string) :
  strip_prefix p s = Some r <-> s = p +:+ r.
Proof.
  revert s. induction p as [|a p IH]; intros s; simpl.
  - rewrite sapp_nil_l. split; congruence.
  - destruct s as [|b s]; [split; discriminate|].
    rewrite sapp_cons. destruct (Ascii.eqb_spec a b) as [->|Hab].
    + rewrite IH. split; congruence.
    + split; [discriminate|]. intros [= ? ?]. congruence.
Qed.

Lemma strip_prefix_app (p r : string) : strip_prefix p (p +:+ r) = Some r.
Proof. by apply strip_prefix_Some. Qed.

Lemma startswith_app (p r : string) : startswith (p +:+ r) p = true.
Proof. unfold startswith. by rewrite strip_prefix_app. Qed.

Lemma startswith_true (s p : string) :
  startswith s p = true <-> exists r, s = p +:+ r.
Proof.
  unfold startswith. split.
  - destruct (strip_prefix p s) as [r|] eqn:E; [|discriminate].
    intros _. exists r. by apply strip_prefix_Some.
  - intros [r ->]. by rewrite strip_prefix_app.
Qed.

Lemma startswith_cons (c : ascii) (s : string) (q : ascii) (p : string) :
  startswith (String c s) (String q p)
  = Ascii.eqb q c && startswith s p.
Proof. unfold startswith. simpl. by destruct (Ascii.eqb q c). Qed.

Lemma startswith_nil_l (q : ascii) (p : string) :
  startswith "" (String q p) = false.
Proof. reflexivity. Qed.

Lemma startswith_nil_r (s : string) : startswith s "" = true.
Proof. reflexivity. Qed.

Lemma str_in_cons (sub : string) (c : ascii) (s : string) :
  str_in sub (String c s) = startswith (String c s) sub || str_in sub s.
Proof. reflexivity. Qed.

(** [sub in s] holds exactly when [s] has [sub] somewhere inside. *)
Lemma str_in_true (sub s : string) :
  str_in sub s = true <-> exists a b, s = a +:+ sub +:+ b.
Proof.
  induction s as [|c s IH].
  - simpl. rewrite orb_false_r, startswith_true. split.
    + intros [r ->]. by exists "", r.
    + intros (a & b & E). destruct a; [by exists b|discriminate].
  - rewrite str_in_cons, orb_true_iff, startswith_true, IH. split.
    + intros [[r ->]|(a & b & ->)]; [by exists "", r|].
      by exists (String c a), b.
    + intros (a & b & E). destruct a as [|c' a].
      * left. by exists b.
      * right. rewrite sapp_cons in E. injection E as -> ->. by exists a, b.
Qed.

Lemma str_in_app_r (sub a b : string) :
  str_in sub b = true -> str_in sub (a +:+ b) = true.
Proof.
  rewrite !str_in_true. intros (x & y & ->).
  exists (a +:+ x), y. by rewrite sapp_assoc.
Qed.

Lemma str_in_app_l (sub a b : string) :
  str_in sub a = true -> str_in sub (a +:+ b) = true.
Proof.
  rewrite !str_in_true. intros (x & y & ->).
  exists x, (y +:+ b). by rewrite !sapp_assoc.
Qed.

Lemma str_in_false_app_r (sub a b : string) :
  str_in sub (a +:+ b) = false -> str_in sub b = false.
Proof.
  intros H. destruct (str_in sub b) eqn:E; [|done].
  by rewrite (str_in_app_r _ a) in H.
Qed.

Lemma str_in_false_app_l (sub a b : string) :
  str_in sub (a +:+ b) = false -> str_in sub a = false.
Proof.
  intros H. destruct (str_in sub a) eqn:E; [|done].
  by rewrite (str_in_app_l _ _ b) in H.
Qed.

End StrFacts.

(** ** [str.replace] *)

Section ReplaceFacts.

Variables old new : string.
Hypothesis old_nonempty : old <> "".

Lemma strip_prefix_shorter (s rest : string) :
  strip_prefix old s = Some rest -> String.length rest < String.length s.
Proof using old_nonempty.
  intros ->%strip_prefix_Some. rewrite sapp_length.
  destruct old; [done|simpl; lia].
Qed.

Lemma replace_fuel_enough (n m : nat) (s : string) :
  String.length s <= n -> String.length s <= m ->
  replace_fuel n old new s = replace_fuel m old new s.
Proof using old_nonempty.
  revert m s. induction n as [|n IH]; intros m s Hn Hm.
  - destruct s; [|simpl in Hn; lia]. by destruct m.
  - destruct m as [|m]; [destruct s; [done|simpl in Hm; lia]|].
    destruct s as [|c s]; [done|]. simpl replace_fuel.
    destruct (strip_prefix old (String c s)) as [rest|] eqn:E.
    + apply strip_prefix_shorter in E. f_equal. apply IH; lia.
    + simpl in Hn, Hm. f_equal. apply IH; lia.
Qed.

Lemma replace_nil : replace old new "" = "".
Proof. reflexivity. Qed.

(** One step of the scan; the fuel of [replace] never runs out. *)
Lemma replace_cons (c : ascii) (s : string) :
  replace old new (String c s) =
  match strip_prefix old (String c s) with
  | Some rest => new +:+ replace old new rest
  | None => String c (replace old new s)
  end.
Proof using old_nonempty.
  unfold replace. simpl String.length. simpl replace_fuel.
  destruct (strip_prefix old (String c s)) as [rest|] eqn:E; [|done].
  apply strip_prefix_shorter in E. f_equal.
  apply replace_fuel_enough; simpl in *; lia.
Qed.

Lemma replace_ind (P : string -> string -> Prop) :
  P "" "" ->
  (forall c s rest,
      strip_prefix old (String c s) = Some rest ->
      P rest (replace old new rest) ->
      P (String c s) (new +:+ replace old new rest)) ->
  (forall c s,
      strip_prefix old (String c s) = None ->
      P s (replace old new s) ->
      P (String c s) (String c (replace old new s))) ->
  forall s, P s (replace old new s).
Proof using old_nonempty.
  intros Hnil Hhit Hmiss s.
  remember (String.length s) as n eqn:Hn.
  revert s Hn. induction n as [n IH] using lt_wf_ind. intros s ->.
  destruct s as [|c s]; [exact Hnil|]. rewrite replace_cons.
  destruct (strip_prefix old (String c s)) as [rest|] eqn:E.
  - apply Hhit; [done|]. eapply IH; [|done].
    by apply strip_prefix_shorter.
  - apply Hmiss; [done|]. eapply IH; [|done]. simpl. lia.
Qed.

(** Without an occurrence there is nothing to replace. *)
Lemma replace_absent (s : string) :
  str_in old s = false -> replace old new s = s.
Proof using old_nonempty.
  apply (replace_ind (fun s out => str_in old s = false -> out = s)).
  - done.
  - intros c s' rest E _ H. rewrite str_in_cons in H.
    apply orb_false_iff in H as [H _]. unfold startswith in H.
    by rewrite E in H.
  - intros c s' _ IH H. rewrite str_in_cons in H.
    apply orb_false_iff in H as [_ H]. by rewrite IH.
Qed.

End ReplaceFacts.

(** The replacement is one character [r]. *)
Section ReplaceByChar.

Variable old : string.
Variable r : ascii.
Hypothesis old_nonempty : old <> "".

Local Abbreviation new := (String r "").

Lemma not_in_head (q : ascii) (Q : string) :
  str_in new (String q Q) = false ->
  Ascii.eqb q r = false /\ str_in new Q = false.
Proof.
  rewrite str_in_cons, startswith_cons, startswith_nil_r.
  rewrite andb_true_r, Ascii.eqb_sym. by intros ?%orb_false_iff.
Qed.

(** What the result starts with, when [r] is not part of it, the
    subject started with too, and no occurrence of [old] began there. *)
Lemma startswith_replace (Q s : string) :
  Q <> "" -> str_in new Q = false ->
  startswith (replace old new s) Q = true ->
  startswith s Q = true /\ strip_prefix old s = None.
Proof using old_nonempty.
  revert s. induction Q as [|q Q IH]; [done|]. intros s _ HQ.
  apply not_in_head in HQ as [Hq HQ].
  destruct s as [|c s]; [by rewrite replace_nil|].
  rewrite replace_cons by done.
  destruct (strip_prefix old (String c s)) as [rest|] eqn:E.
  - rewrite sapp_cons, sapp_nil_l, startswith_cons, Hq. done.
  - rewrite !startswith_cons. intros [Hc H]%andb_true_iff.
    split; [|done]. rewrite Hc. simpl.
    destruct Q as [|q' Q]; [done|].
    apply IH in H as [H _]; done.
Qed.

(** After the replacement no occurrence of [old] is left. *)
Lemma replace_removes (s : string) :
  str_in new old = false -> str_in old (replace old new s) = false.
Proof using old_nonempty.
  intros Hr.
  apply (replace_ind old new old_nonempty
           (fun _ out => str_in old out = false)).
  - destruct old; [done|reflexivity].
  - intros c s' rest _ IH.
    rewrite sapp_cons, sapp_nil_l, str_in_cons, IH, orb_false_r.
    destruct old as [|q Q]; [done|].
    apply not_in_head in Hr as [Hq _]. by rewrite startswith_cons, Hq.
  - intros c s' E IH. rewrite str_in_cons, IH, orb_false_r.
    destruct (startswith (String c (replace old new s')) old) eqn:H;
      [|done].
    assert (startswith (replace old new (String c s')) old = true) as H'
      by (by rewrite replace_cons, E).
    apply startswith_replace in H' as [H' _]; [|done..].
    unfold startswith in H'. by rewrite E in H'.
Qed.

(** The replacement creates no occurrence of a text without [r]. *)
Lemma replace_keeps_absent (Q s : string) :
  Q <> "" -> str_in new Q = false ->
  str_in Q s = false -> str_in Q (replace old new s) = false.
Proof using old_nonempty.
  intros HQ Hr.
  apply (replace_ind old new old_nonempty
           (fun s out => str_in Q s = false -> str_in Q out = false)).
  - done.
  - intros c s' rest E IH H.
    apply strip_prefix_Some in E. rewrite E in H.
    apply str_in_false_app_r in H.
    rewrite sapp_cons, sapp_nil_l, str_in_cons, (IH H), orb_false_r.
    destruct Q as [|q Q]; [done|].
    apply not_in_head in Hr as [Hq _]. by rewrite startswith_cons, Hq.
  - intros c s' E IH H. rewrite str_in_cons in H.
    apply orb_false_iff in H as [H1 H2].
    rewrite str_in_cons, (IH H2), orb_false_r.
    destruct (startswith (String c (replace old new s')) Q) eqn:H; [|done].
    assert (startswith (replace old new (String c s')) Q = true) as H'
      by (by rewrite replace_cons, E).
    apply startswith_replace in H' as [H' _]; [|done..]. congruence.
Qed.

End ReplaceByChar.

(** ** [str.strip] *)

Section StripFacts.

Lemma lstrip_suffix (s : string) : exists w, s = w +:+ lstrip s.
Proof.
  induction s as [|c s [w IH]]; [by exists ""|]. simpl.
  destruct (is_space c); [|by exists ""].
  exists (String c w). by rewrite sapp_cons, <- IH.
Qed.

Lemma rstrip_prefix (s : string) : exists w, s = rstrip s +:+ w.
Proof.
  induction s as [|c s [w IH]]; [by exists ""|]. simpl.
  destruct (rstrip s) as [|d t] eqn:E.
  - destruct (is_space c).
    + by exists (String c s).
    + exists w. by rewrite sapp_cons, sapp_nil_l, IH at 1.
  - exists w. by rewrite sapp_cons, <- IH.
Qed.

Lemma strip_inside (s : string) : exists a b, s = a +:+ strip s +:+ b.
Proof.
  destruct (lstrip_suffix s) as [a Ha].
  destruct (rstrip_prefix (lstrip s)) as [b Hb].
  exists a, b. unfold strip. by rewrite <- Hb.
Qed.

Lemma str_in_strip (sub s : string) :
  str_in sub s = false -> str_in sub (strip s) = false.
Proof.
  destruct (strip_inside s) as (a & b & E). intros H. rewrite E in H.
  by apply str_in_false_app_r, str_in_false_app_l in H.
Qed.

Lemma lstrip_head (s : string) (c : ascii) (t : string) :
  lstrip s = String c t -> is_space c = false.
Proof.
  induction s as [|d s IH]; [done|]. simpl.
  destruct (is_space d) eqn:E; [done|]. by intros [= <- _].
Qed.

Lemma rstrip_head (c : ascii) (s : string) :
  rstrip (String c s) = "" \/ exists t, rstrip (String c s) = String c t.
Proof.
  simpl. destruct (rstrip s); [destruct (is_space c)|]; eauto.
Qed.

Lemma rstrip_idemp (s : string) : rstrip (rstrip s) = rstrip s.
Proof.
  induction s as [|c s IH]; [done|]. simpl.
  destruct (rstrip s) as [|d t] eqn:E.
  - destruct (is_space c) eqn:Hc; [done|]. simpl. by rewrite Hc.
  - change (rstrip (String c (String d t)))
      with (match rstrip (String d t) with
            | "" => if is_space c then "" else String c ""
            | r => String c r
            end).
    by rewrite IH.
Qed.

Lemma lstrip_fixed (c : ascii) (s : string) :
  is_space c = false -> lstrip (String c s) = String c s.
Proof. intros H. simpl. by rewrite H. Qed.

Lemma strip_idemp (s : string) : strip (strip s) = strip s.
Proof.
  unfold strip. destruct (lstrip s) as [|c t] eqn:E; [done|].
  apply lstrip_head in E.
  destruct (rstrip_head c t) as [H|[u H]]; rewrite H; [done|].
  rewrite (lstrip_fixed _ _ E), <- H. apply rstrip_idemp.
Qed.

(** A string with neither leading nor trailing whitespace. *)
Lemma strip_fixed_nonempty (s : string) :
  strip s = s -> s <> "" -> exists c t, s = String c t.
Proof. destruct s; [done|eauto]. Qed.

End StripFacts.

(** ** Cell normalisation *)

Section CleanCell.

Lemma clean_cell_unfold (v : string) :
  clean_cell v = strip (replace "\n" NL (replace "<br>" NL v)).
Proof. by destruct v. Qed.

Lemma clean_cell_no_br (v : string) : str_in "<br>" (clean_cell v) = false.
Proof.
  rewrite clean_cell_unfold. apply str_in_strip.
  apply replace_keeps_absent; [done..|].
  by apply replace_removes.
Qed.

Lemma clean_cell_no_backslash_n (v : string) :
  str_in "\n" (clean_cell v) = false.
Proof.
  rewrite clean_cell_unfold. apply str_in_strip.
  by apply replace_removes.
Qed.

Lemma clean_cell_stripped (v : string) :
  strip (clean_cell v) = clean_cell v.
Proof. rewrite clean_cell_unfold. apply strip_idemp. Qed.

Lemma clean_cell_fixed (v : string) :
  str_in "<br>" v = false -> str_in "\n" v = false -> strip v = v ->
  clean_cell v = v.
Proof.
  intros Hbr Hn Hs. rewrite clean_cell_unfold.
  by rewrite (replace_absent "<br>" NL) , (replace_absent "\n" NL).
Qed.

End CleanCell.

(** C8, as the specification states it: a value without ["<br>"] and
    without a literal backslash-n would come back unchanged.  It does not:
    the last step of [clean_cell] trims, so [" a"] comes back as ["a"]. *)
Lemma clean_cell_changes_untrimmed :
  ~ (forall v : string,
        str_in "<br>" v = false -> str_in "\n" v = false ->
        clean_cell v = v).
Proof. intros H. by specialize (H " a" eq_refl eq_refl). Qed.

(** C8, amended: a value without ["<br>"], without a literal backslash-n
    and without leading or trailing whitespace comes back unchanged, and
    [clean_cell] is idempotent on every value. *)
Theorem clean_cell_idempotent :
  (forall v : string,
      str_in "<br>" v = false -> str_in "\n" v = false -> strip v = v ->
      clean_cell v = v)
  /\ (forall v : string, clean_cell (clean_cell v) = clean_cell v).
Proof.
  split; [exact clean_cell_fixed|]. intros v.
  apply clean_cell_fixed;
    auto using clean_cell_no_br, clean_cell_no_backslash_n,
      clean_cell_stripped.
Qed.

Lemma clean_cell_idempotent_witness :
  clean_cell "Enter creds" = "Enter creds"
  /\ clean_cell (clean_cell " a<br>b\n ") = clean_cell " a<br>b\n ".
Proof.
  destruct clean_cell_idempotent as [Hfix Hidem]. split.
  - apply Hfix; reflexivity.
  - apply Hidem.
Defined.

(** ** Rows and their segments *)

Section SplitFacts.

Variable sep : ascii.

Local Abbreviation has_sep := (str_in (String sep "")).

Lemma has_sep_cons (c : ascii) (s : string) :
  has_sep (String c s) = Ascii.eqb c sep || has_sep s.
Proof.
  rewrite str_in_cons, startswith_cons, startswith_nil_r, andb_true_r.
  by rewrite Ascii.eqb_sym.
Qed.

Lemma split_not_nil (s : string) : split sep s <> [].
Proof.
  induction s as [|c s IH]; [done|]. simpl.
  destruct (Ascii.eqb c sep); [done|]. by destruct (split sep s).
Qed.

Lemma split_absent (s : string) : has_sep s = false -> split sep s = [s].
Proof.
  induction s as [|c s IH]; [done|]. rewrite has_sep_cons.
  intros [Hc Hs]%orb_false_iff. simpl. by rewrite Hc, (IH Hs).
Qed.

Lemma split_app_sep (s rest : string) :
  has_sep s = false ->
  split sep (s +:+ String sep rest) = s :: split sep rest.
Proof.
  induction s as [|c s IH].
  - intros _. rewrite sapp_nil_l. simpl. by rewrite Ascii.eqb_refl.
  - rewrite has_sep_cons. intros [Hc Hs]%orb_false_iff.
    rewrite sapp_cons. simpl. by rewrite Hc, (IH Hs).
Qed.

(** Splitting undoes joining, for pieces free of the separator. *)
Lemma split_join (pieces : list string) :
  pieces <> [] -> Forall (fun s => has_sep s = false) pieces ->
  split sep (join sep pieces) = pieces.
Proof.
  induction pieces as [|x [|y rest] IH]; [done|..]; intros _ H.
  - apply Forall_cons in H as [Hx _]. by apply split_absent.
  - apply Forall_cons in H as [Hx H].
    change (join sep (x :: y :: rest))
      with (x +:+ String sep (join sep (y :: rest))).
    rewrite split_app_sep by done. f_equal. by apply IH.
Qed.

End SplitFacts.

Lemma slice_1_m1_framed {A} (first last : A) (middle : list A) :
  slice_1_m1 (first :: middle ++ [last]) = middle.
Proof.
  unfold slice_1_m1. simpl. rewrite length_app. simpl.
  replace (length middle + 1 - 0) with (S (length middle)) by lia.
  simpl. by rewrite take_app_length.
Qed.

Lemma row_segments_join (first last : string) (middle : list string) :
  Forall (fun s => str_in "|" s = false) (first :: middle ++ [last]) ->
  row_segments (join "|" (first :: middle ++ [last])) = middle.
Proof.
  intros H. unfold row_segments.
  rewrite split_join by done. apply slice_1_m1_framed.
Qed.

(** C10: the pieces of a row between its separators lose their first and
    their last member, whatever these hold.  So a row that no separator
    frames loses its first and its last cell, as a header line (the field
    list shrinks) and as a data row; and a data row with as many cells as
    the header has fields, but no frame, is dropped. *)
Theorem unframed_row_loses_outer_cells
    (first last : string) (middle : list string) :
  Forall (fun s => str_in "|" s = false) (first :: middle ++ [last]) ->
  let row := join "|" (first :: middle ++ [last]) in
  row_cells row = clean_cell <$> middle
  /\ header_fields row = strip <$> middle
  /\ forall headers test_cases,
       length headers = length (first :: middle ++ [last]) ->
       add_row headers test_cases row = test_cases.
Proof.
  intros H row. unfold row_cells, header_fields, add_row, row_cells.
  subst row. rewrite row_segments_join by done.
  split_and!; [done..|]. intros headers test_cases Hlen.
  rewrite length_fmap, Hlen. simpl. rewrite length_app. simpl.
  destruct (length middle =? S (length middle + 1)) eqn:E; [|done].
  apply Nat.eqb_eq in E. lia.
Qed.

Lemma unframed_row_loses_outer_cells_witness :
  row_cells "TC001 | None | Valid login" = ["None"]
  /\ header_fields "Test Case ID | Preconditions | Remarks"
     = ["Preconditions"].
Proof.
  pose proof (unframed_row_loses_outer_cells "TC001 " " Valid login"
                [" None "]) as H1.
  pose proof (unframed_row_loses_outer_cells "Test Case ID " " Remarks"
                [" Preconditions "]) as H2.
  split.
  - apply H1. repeat constructor.
  - apply H2. repeat constructor.
Defined.

(** ** The table parser *)

Section ParserFacts.

Lemma find_header_none (i : nat) (lines : list string) :
  Forall (fun l => is_header_line l = false) lines ->
  find_header i lines = None.
Proof.
  revert i. induction lines as [|l ls IH]; intros i H; [done|].
  apply Forall_cons in H as [Hl H]. simpl. rewrite Hl. by apply IH.
Qed.

Lemma find_header_first (i : nat) (pre : list string) (hdr : string)
    (rest : list string) :
  Forall (fun l => is_header_line l = false) pre ->
  is_header_line hdr = true ->
  find_header i (pre ++ hdr :: rest) = Some (i + length pre).
Proof.
  revert i. induction pre as [|l ls IH]; intros i H Hh; simpl.
  - rewrite Hh. f_equal. lia.
  - apply Forall_cons in H as [Hl H]. rewrite Hl, IH by done.
    f_equal. lia.
Qed.

Lemma find_header_Some (i k : nat) (lines : list string) :
  find_header i lines = Some k ->
  exists line, lines !! (k - i) = Some line /\ is_header_line line = true
               /\ i <= k.
Proof.
  revert i. induction lines as [|l ls IH]; intros i; [done|]. simpl.
  destruct (is_header_line l) eqn:E.
  - intros [= <-]. exists l. rewrite Nat.sub_diag. done.
  - intros (line & H1 & H2 & H3)%IH. exists line.
    replace (k - i) with (S (k - S i)) by lia. split_and!; [done..|lia].
Qed.

Lemma collect_table_block (acc block post : list string) :
  Forall (fun l => str_in "|" l = true) block ->
  ends_block post -> acc ++ block <> [] ->
  collect_table acc (block ++ post) = acc ++ block.
Proof.
  revert acc. induction block as [|l ls IH]; intros acc H Hp Hne.
  - rewrite app_nil_r in *. destruct post as [|l post]; [done|].
    simpl in *. rewrite Hp. by destruct acc.
  - apply Forall_cons in H as [Hl H]. simpl. rewrite Hl.
    rewrite IH, <- app_assoc; [done..|]. by destruct acc.
Qed.

Lemma foldl_add_row (headers : list string)
    (acc : list (gmap string string)) (rows : list string) :
  foldl (add_row headers) acc rows
  = acc ++ (record headers <$> filter (kept_row headers) rows).
Proof.
  revert acc. induction rows as [|r rs IH]; intros acc; simpl.
  - by rewrite app_nil_r.
  - rewrite IH, filter_cons. unfold add_row, kept_row at 1.
    destruct (Nat.eqb_spec (length (row_cells r)) (length headers)).
    + rewrite decide_True by done. by rewrite <- app_assoc.
    + by rewrite decide_False by done.
Qed.

Lemma dict_reverse (pairs : list (string * string)) :
  dict pairs = list_to_map (reverse pairs).
Proof.
  unfold dict. induction pairs as [|kv pairs IH] using rev_ind; [done|].
  by rewrite foldl_app, reverse_app, IH.
Qed.

(** With distinct keys, the value under the [j]-th key is the [j]-th
    value. *)
Lemma dict_zip_lookup (keys vals : list string) (j : nat) (k : string) :
  NoDup keys -> length vals = length keys -> keys !! j = Some k ->
  dict (zip keys vals) !! k = vals !! j.
Proof.
  intros Hnd Hlen Hk.
  destruct (vals !! j) as [v|] eqn:Hv.
  2: { apply lookup_ge_None in Hv. apply lookup_lt_Some in Hk. lia. }
  rewrite dict_reverse. apply elem_of_list_to_map_1.
  - rewrite fmap_reverse, fst_zip by lia. by rewrite reverse_Permutation.
  - apply elem_of_reverse, list_elem_of_lookup. exists j.
    apply lookup_zip_with_Some. eauto.
Qed.

Lemma FIELDS_NoDup : NoDup FIELDS.
Proof. apply (bool_decide_unpack _). by vm_compute. Qed.

End ParserFacts.

(** C1: in a response whose lines are some text without a header line, a
    header line naming the seven fields, a separator line, one or more
    lines with a column separator, and then nothing or a line without one,
    [parse_markdown_table] returns the records of exactly the data rows
    with seven cells, in the order of the rows (and fails with
    EmptyResultError when there is none); the record of a row maps the
    [j]-th field name to the row's [j]-th cell, normalised.  The other rows
    leave no trace in the result. *)
Theorem parse_markdown_table_keeps_matching_rows
    (md_full_text : string) (pre : list string) (hdr sep : string)
    (rows post : list string) :
  splitlines md_full_text = pre ++ hdr :: sep :: rows ++ post ->
  Forall (fun l => is_header_line l = false) pre ->
  is_header_line hdr = true ->
  str_in "|" sep = true ->
  Forall (fun l => str_in "|" l = true) rows ->
  rows <> [] ->
  ends_block post ->
  header_fields hdr = FIELDS ->
  let kept := filter (kept_row FIELDS) rows in
  parse_markdown_table md_full_text
  = match kept with
    | [] => Raise EmptyResultError
    | _ :: _ => Ok (record FIELDS <$> kept)
    end
  /\ forall row j name,
       row ∈ kept -> FIELDS !! j = Some name ->
       record FIELDS row !! name = clean_cell <$> row_segments row !! j.
Proof.
  intros Hlines Hpre Hhdr Hsep Hrows Hne Hpost Hfields kept. split.
  - unfold parse_markdown_table. rewrite Hlines.
    rewrite find_header_first by done. simpl Nat.add.
    rewrite drop_app_length.
    change (hdr :: sep :: rows ++ post) with ((hdr :: sep :: rows) ++ post).
    assert (Forall (fun l => str_in "|" l = true) (hdr :: sep :: rows))
      as Hblock.
    { apply andb_true_iff in Hhdr as [Hbar _]. by repeat apply Forall_cons_2. }
    rewrite collect_table_block by done.
    rewrite app_nil_l. destruct rows as [|r rs]; [done|].
    simpl length. simpl Nat.ltb. simpl nth. simpl drop.
    rewrite Hfields, foldl_add_row, app_nil_l. fold kept.
    by destruct kept.
  - intros row j name [Hrow _]%list_elem_of_filter Hj. unfold record.
    rewrite (dict_zip_lookup _ _ j);
      [|apply FIELDS_NoDup|exact Hrow|exact Hj].
    unfold row_cells. by rewrite list_lookup_fmap.
Qed.

Lemma parse_markdown_table_keeps_matching_rows_witness :
  parse_markdown_table SCENARIO_C
  = Ok [record FIELDS
          "| TC001 | None | Valid login | Enter creds | Success | | |"].
Proof.
  refine (proj1 (parse_markdown_table_keeps_matching_rows SCENARIO_C
    ["Component: Login"; ""]
    "| Test Case ID | Preconditions | Test Condition | Steps with description | Expected Result | Actual Result | Remarks |"
    "|---|---|---|---|---|---|---|"
    ["| TC001 | None | Valid login | Enter creds | Success | | |";
     "| TC002 | None | Bad login | Enter junk | Failure | |"]
    [""; "That is the whole table."] _ _ _ _ _ _ _ _)).
  - reflexivity.
  - repeat constructor.
  - reflexivity.
  - reflexivity.
  - repeat constructor.
  - discriminate.
  - reflexivity.
  - reflexivity.
Defined.

(** C2: a response without a line that holds both the column separator
    and the header token fails with TableNotFoundError, and a result that
    is returned is never the empty list. *)
Theorem parse_markdown_table_never_empty (md_full_text : string) :
  (Forall (fun line => ~ (str_in "|" line = true
                          /\ str_in "Test Case ID" line = true))
          (splitlines md_full_text) ->
   parse_markdown_table md_full_text = Raise TableNotFoundError)
  /\ (forall test_cases,
        parse_markdown_table md_full_text = Ok test_cases ->
        test_cases <> []).
Proof.
  unfold parse_markdown_table. split.
  - intros H. rewrite find_header_none; [done|].
    eapply Forall_impl; [exact H|]. intros line Hl. simpl in Hl.
    unfold is_header_line.
    destruct (str_in "|" line), (str_in "Test Case ID" line); tauto.
  - intros test_cases.
    destruct (find_header 0 (splitlines md_full_text)); [|done].
    destruct (_ <? 3); [done|].
    destruct (foldl _ _ _); [done|]. by intros [= <-].
Qed.

Lemma parse_markdown_table_never_empty_witness :
  parse_markdown_table "Component: Login" = Raise TableNotFoundError
  /\ [record FIELDS
        "| TC001 | None | Valid login | Enter creds | Success | | |"]
     <> [].
Proof.
  split.
  - apply (proj1 (parse_markdown_table_never_empty "Component: Login")).
    repeat constructor. simpl. intros [H _]. discriminate.
  - apply (proj2 (parse_markdown_table_never_empty SCENARIO_B)).
    reflexivity.
Defined.

(** ** The prompt *)

(** C6: the prompt is one fixed instruction block followed by the
    requirements text as it is: taking the block off the front of the
    prompt leaves exactly the text, whatever the text is. *)
Theorem build_prompt_appends_requirements :
  exists boilerplate : string,
    boilerplate <> ""
    /\ forall srs_text : string,
         build_prompt srs_text = boilerplate +:+ srs_text
         /\ strip_prefix boilerplate (build_prompt srs_text) = Some srs_text
         /\ String.length (build_prompt srs_text)
            = String.length boilerplate + String.length srs_text.
Proof.
  exists INSTRUCTIONS. split; [done|]. intros srs_text. unfold build_prompt.
  split_and!; [done|apply strip_prefix_app|apply sapp_length].
Qed.

(** Scenario A: both paragraphs are in the prompt, after the block. *)
Example build_prompt_scenario_A :
  strip_prefix INSTRUCTIONS
    (build_prompt (ln "Login module" +:+ "Must support IPv4 and IPv6"))
  = Some (ln "Login module" +:+ "Must support IPv4 and IPv6").
Proof. apply strip_prefix_app. Qed.

(** ** The pattern of the component line *)

Section ReFacts.

Lemma all_chars_app (cls : ascii -> bool) (a b : string) :
  all_chars cls (a +:+ b) = all_chars cls a && all_chars cls b.
Proof.
  induction a as [|c a IH]; [done|].
  rewrite sapp_cons. simpl. by rewrite IH, andb_assoc.
Qed.

(** The end of the pattern, [\s*$]: it leaves group 1 as it is. *)
Lemma star_eol_result (cls : ascii -> bool) (prev : option ascii)
    (cap s r : string) :
  Re.star_greedy cls (Re.match_here [Re.Eol]) prev cap s = Some r -> r = cap.
Proof.
  revert prev. induction s as [|c s IH]; intros prev; simpl.
  - by intros [= <-].
  - assert (Re.match_here [Re.Eol] prev cap (String c s) = Some r -> r = cap)
      as Hk by (simpl; destruct (Ascii.eqb c LF); congruence).
    destruct (cls c); [|done].
    destruct (Re.star_greedy _ _ _ _ s) as [r'|] eqn:E; [|done].
    intros [= <-]. by apply IH in E.
Qed.

(** It matches whitespace that runs up to the end of a line... *)
Lemma star_eol_succeeds (cls : ascii -> bool) (prev : option ascii)
    (cap pad tail : string) :
  all_chars cls pad = true -> Re.at_eol tail = true ->
  Re.star_greedy cls (Re.match_here [Re.Eol]) prev cap (pad +:+ tail)
  = Some cap.
Proof.
  intros Hpad Htail. revert prev Hpad.
  induction pad as [|c pad IH]; intros prev Hpad.
  - rewrite sapp_nil_l. destruct tail as [|c t]; [done|]. simpl in *.
    rewrite Htail. destruct (cls c); [|done].
    destruct (Re.star_greedy _ _ _ _ t) as [r|] eqn:E; [|done].
    by apply star_eol_result in E as ->.
  - simpl in Hpad. apply andb_true_iff in Hpad as [Hc Hpad].
    rewrite sapp_cons. simpl. by rewrite Hc, IH.
Qed.

(** ... and nothing that has a character outside the class before the end
    of the line. *)
Lemma star_eol_fails (cls : ascii -> bool) (prev : option ascii)
    (cap a : string) (c : ascii) (b : string) :
  all_chars Re.dot a = true -> cls c = false -> Re.dot c = true ->
  Re.star_greedy cls (Re.match_here [Re.Eol]) prev cap (a +:+ String c b)
  = None.
Proof.
  intros Ha Hc Hdot. revert prev Ha.
  induction a as [|x a IH]; intros prev Ha.
  - rewrite sapp_nil_l. simpl. rewrite Hc. unfold Re.dot in Hdot.
    by destruct (Ascii.eqb c LF).
  - simpl in Ha. apply andb_true_iff in Ha as [Hx Ha].
    rewrite sapp_cons. simpl. rewrite IH by done. unfold Re.dot in Hx.
    destruct (Ascii.eqb x LF); [done|]. by destruct (cls x).
Qed.

(** The lazy group stops at the first point from which the rest of the
    line is blank: after a value that ends in a character that is not
    whitespace, and not before. *)
Lemma plus_lazy_value (cap body : string) (last : ascii)
    (pad tail : string) :
  all_chars Re.dot body = true -> Re.dot last = true ->
  is_space last = false ->
  all_chars is_space pad = true -> Re.at_eol tail = true ->
  Re.plus_lazy Re.dot (Re.match_here [Re.Star Re.space; Re.Eol]) cap
    ((body +:+ String last "") +:+ pad +:+ tail)
  = Some (cap +:+ body +:+ String last "").
Proof.
  intros Hbody Hlast Hsp Hpad Htail. revert cap Hbody.
  induction body as [|c body IH]; intros cap Hbody.
  - rewrite sapp_nil_l, sapp_cons, sapp_nil_l. simpl. rewrite Hlast.
    change (Re.star_greedy Re.space (Re.match_here [Re.Eol]) (Some last)
              (cap +:+ String last "") (pad +:+ tail))
      with (Re.star_greedy is_space (Re.match_here [Re.Eol]) (Some last)
              (cap +:+ String last "") (pad +:+ tail)).
    by rewrite star_eol_succeeds.
  - simpl in Hbody. apply andb_true_iff in Hbody as [Hc Hbody].
    rewrite !sapp_cons. simpl. rewrite Hc.
    change (Re.star_greedy Re.space (Re.match_here [Re.Eol]) (Some c)
              (cap +:+ String c "")
              ((body +:+ String last "") +:+ pad +:+ tail))
      with (Re.star_greedy is_space (Re.match_here [Re.Eol]) (Some c)
              (cap +:+ String c "")
              ((body +:+ String last "") +:+ pad +:+ tail)).
    rewrite sapp_assoc, sapp_cons, sapp_nil_l, star_eol_fails by done.
    rewrite <- (sapp_nil_l (pad +:+ tail)), <- sapp_cons, <- sapp_assoc.
    rewrite IH by done. by rewrite sapp_assoc, !sapp_cons, sapp_nil_l.
Qed.

(** A greedy star over a run of the class that ends where the class
    ends: when the rest of the pattern matches there, that is the match. *)
Lemma star_greedy_run (cls : ascii -> bool) (k : Re.cont)
    (prev : option ascii) (cap pad s r : string) :
  all_chars cls pad = true ->
  match s with "" => True | String c _ => cls c = false end ->
  (forall prev', k prev' cap s = Some r) ->
  Re.star_greedy cls k prev cap (pad +:+ s) = Some r.
Proof.
  intros Hpad Hs Hk. revert prev Hpad.
  induction pad as [|c pad IH]; intros prev Hpad.
  - rewrite sapp_nil_l. destruct s as [|c t]; simpl; [done|].
    by rewrite Hs.
  - simpl in Hpad. apply andb_true_iff in Hpad as [Hc Hpad].
    rewrite sapp_cons. simpl. by rewrite Hc, IH.
Qed.

(** Literal text, whatever the case of its letters. *)
Lemma match_lit (w word : string) (pat : list Re.node)
    (prev : option ascii) (cap s r : string) :
  lower word = lower w ->
  (forall prev', Re.match_here pat prev' cap s = Some r) ->
  Re.match_here (Re.lit w ++ pat) prev cap (word +:+ s) = Some r.
Proof.
  intros Hw Hk. revert word prev Hw.
  induction w as [|c w IH]; intros [|d word] prev Hw; try done.
  simpl in Hw. injection Hw as Hd Hw. rewrite sapp_cons. simpl.
  rewrite Hd, Ascii.eqb_refl. by apply IH.
Qed.

Lemma lower_char_not_space (c d : ascii) :
  lower_char c = d -> is_space d = false -> is_space c = false.
Proof.
  intros <-. destruct c as [[] [] [] [] [] [] [] []]; by vm_compute.
Qed.

(** A string that [strip] leaves alone starts and ends with characters
    that are not whitespace. *)
Lemma lstrip_length (s : string) :
  String.length (lstrip s) <= String.length s.
Proof. induction s as [|c s IH]; simpl; [done|]. destruct (is_space c); simpl; lia. Qed.

Lemma rstrip_length (s : string) :
  String.length (rstrip s) <= String.length s.
Proof.
  induction s as [|c s IH]; simpl; [done|].
  destruct (rstrip s); [destruct (is_space c)|]; simpl in *; lia.
Qed.

Lemma rstrip_snoc (s : string) :
  s <> "" -> rstrip s = s ->
  exists body last, s = body +:+ String last "" /\ is_space last = false.
Proof.
  induction s as [|c s IH]; [done|]. intros _. simpl.
  destruct (rstrip s) as [|d t] eqn:E.
  - destruct (is_space c) eqn:Hc; [done|]. intros [= <-]. by exists "", c.
  - intros [= Hs]. destruct IH as (body & last & -> & Hl); [by rewrite <- Hs|congruence|].
    by exists (String c body), last.
Qed.

Lemma strip_fixed_ends (s : string) :
  s <> "" -> strip s = s ->
  (exists c t, s = String c t /\ is_space c = false)
  /\ (exists body last, s = body +:+ String last "" /\ is_space last = false).
Proof.
  intros Hne Hs. unfold strip in Hs.
  assert (lstrip s = s) as Hl.
  { destruct s as [|c t]; [done|]. simpl in *.
    destruct (is_space c); [|done].
    pose proof (rstrip_length (lstrip t)) as H1.
    pose proof (lstrip_length t) as H2.
    rewrite Hs in H1. simpl in H1. lia. }
  rewrite Hl in Hs. split; [|by apply rstrip_snoc].
  destruct s as [|c t]; [done|]. exists c, t. split; [done|].
  by apply (lstrip_head _ _ _ Hl).
Qed.

Lemma search_from_first (pat : list Re.node) (prev : option ascii)
    (s r : string) :
  Re.match_here pat prev "" s = Some r -> Re.search_from pat prev s = Some r.
Proof. intros H. destruct s; simpl; by rewrite H. Qed.

Lemma star_greedy_inv (cls : ascii -> bool) (k : Re.cont)
    (prev : option ascii) (cap s r : string) :
  Re.star_greedy cls k prev cap s = Some r ->
  exists prev' s', k prev' cap s' = Some r.
Proof.
  revert prev. induction s as [|c s IH]; intros prev; simpl; [eauto|].
  destruct (cls c); [|eauto].
  destruct (Re.star_greedy cls k (Some c) cap s) eqn:E; [|eauto].
  intros [= <-]. eauto.
Qed.

Lemma plus_lazy_inv (cls : ascii -> bool) (k : Re.cont)
    (cap s r : string) :
  Re.plus_lazy cls k cap s = Some r ->
  exists prev' ext s',
    all_chars cls ext = true /\ k prev' (cap +:+ ext) s' = Some r.
Proof.
  revert cap. induction s as [|c s IH]; intros cap; simpl; [done|].
  destruct (cls c) eqn:Hc; [|done].
  destruct (k (Some c) (cap +:+ String c "") s) eqn:E.
  - intros [= <-]. exists (Some c), (String c ""), s. simpl. by rewrite Hc.
  - intros (prev' & ext & s' & Hext & H)%IH.
    exists prev', (String c ext), s'. simpl. rewrite Hc, Hext.
    by rewrite sapp_assoc, sapp_cons, sapp_nil_l in H.
Qed.

Lemma match_lit_inv (w : string) (pat : list Re.node)
    (prev : option ascii) (cap s r : string) :
  Re.match_here (Re.lit w ++ pat) prev cap s = Some r ->
  exists prev' s', Re.match_here pat prev' cap s' = Some r.
Proof.
  revert prev s. induction w as [|c w IH]; intros prev s; [eauto|].
  simpl. destruct s as [|d s]; [done|].
  destruct (Ascii.eqb _ _); [apply IH|done].
Qed.

(** Group 1 of a match holds no line feed. *)
Lemma component_re_group (prev : option ascii) (cap s r : string) :
  Re.match_here COMPONENT_RE prev cap s = Some r ->
  all_chars Re.dot r = true.
Proof.
  unfold COMPONENT_RE. cbn [app Re.match_here].
  destruct (Re.at_bol prev); [|done].
  intros (p1 & s1 & H)%star_greedy_inv.
  apply match_lit_inv in H as (p2 & s2 & H). cbn [Re.match_here] in H.
  apply star_greedy_inv in H as (p3 & s3 & H).
  destruct s3 as [|d s3]; [done|]. destruct (Ascii.eqb _ _); [|done].
  apply star_greedy_inv in H as (p4 & s4 & H).
  apply plus_lazy_inv in H as (p5 & ext & s5 & Hext & H).
  by apply star_eol_result in H as ->.
Qed.

Lemma search_from_unfold (pat : list Re.node) (prev : option ascii)
    (s : string) :
  Re.search_from pat prev s
  = match Re.match_here pat prev "" s with
    | Some r => Some r
    | None =>
        match s with
        | "" => None
        | String c s' => Re.search_from pat (Some c) s'
        end
    end.
Proof. by destruct s. Qed.

Lemma search_from_group (prev : option ascii) (s r : string) :
  Re.search_from COMPONENT_RE prev s = Some r -> all_chars Re.dot r = true.
Proof.
  revert prev. induction s as [|c s IH]; intros prev;
    rewrite search_from_unfold;
    destruct (Re.match_here COMPONENT_RE prev "" _) eqn:E; try done;
    try (intros [= <-]; by apply component_re_group in E).
  apply IH.
Qed.

Lemma all_dot_no_line_feed (r : string) :
  all_chars Re.dot r = true -> str_in NL r = false.
Proof.
  unfold NL. induction r as [|c r IH]; [done|]. simpl all_chars.
  intros [Hc Hr]%andb_true_iff. rewrite has_sep_cons, (IH Hr).
  unfold Re.dot in Hc. by destruct (Ascii.eqb c LF).
Qed.

End ReFacts.

(** ** The component name *)

(** Scenario B, and the first of several component lines winning. *)
Example extract_component_scenario_B :
  extract_component SCENARIO_B = "Login".
Proof. reflexivity. Qed.

Example extract_component_first_wins :
  extract_component (ln "  COMPONENT:  Login  " +:+ "Component: Other")
  = "Login".
Proof. reflexivity. Qed.

Example extract_component_scenario_D :
  extract_component (ln "No name here." +:+ "| Test Case ID | A |")
  = "Unknown".
Proof. reflexivity. Qed.

(** C4 at a response whose component line has no value: no line of the
    response has the form [Component:<value>], yet the result is not the
    sentinel.  The whitespace after the colon is matched by [\s*], which
    runs over the line breaks, and the value is taken from the next line
    that is not blank: here the header row of the table. *)
Theorem extract_component_takes_next_line :
  extract_component
    (ln "Component:" +:+ ln "" +:+
     ln "| Test Case ID | Preconditions |" +:+
     ln "|---|---|" +:+
     "| TC001 | None |")
  = "| Test Case ID | Preconditions |".
Proof. reflexivity. Qed.

(** C5 at a component line whose value is blank: the group takes one
    space, which the final [strip] removes, and the result is the empty
    string. *)
Theorem extract_component_blank_value :
  extract_component "Component: " = "".
Proof. reflexivity. Qed.

(** The part of C5 that the code keeps: no line feed in the name. *)
Lemma extract_component_no_line_feed (md_full_text : string) :
  str_in NL (extract_component md_full_text) = false.
Proof.
  unfold extract_component, Re.search.
  destruct (Re.search_from _ _ _) as [r|] eqn:E; [|done].
  eapply str_in_strip, all_dot_no_line_feed, search_from_group, E.
Qed.

(** The part of C4 that the code keeps.  A response that begins with the
    word "Component" in any case, a colon and a value that is not blank,
    each with whitespace around it, the value ending its line: the result
    is the value, trimmed, whatever follows, further component lines
    included. *)
Lemma extract_component_leading_line
    (pad1 word pad2 pad3 value pad4 tail : string) :
  all_chars is_space pad1 = true -> lower word = "component" ->
  all_chars is_space pad2 = true -> all_chars is_space pad3 = true ->
  value <> "" -> strip value = value -> all_chars Re.dot value = true ->
  all_chars is_space pad4 = true -> Re.at_eol tail = true ->
  extract_component
    (pad1 +:+ word +:+ pad2 +:+ ":" +:+ pad3 +:+ value +:+ pad4 +:+ tail)
  = value.
Proof.
  intros Hp1 Hword Hp2 Hp3 Hne Hstrip Hdot Hp4 Htail.
  destruct (strip_fixed_ends value Hne Hstrip)
    as [(c & t & Hhead & Hc) (body & last & Hsnoc & Hlast)].
  assert (forall prev,
    Re.match_here [Re.Group1PlusLazy Re.dot; Re.Star Re.space; Re.Eol]
      prev "" (value +:+ pad4 +:+ tail) = Some value) as H4.
  { intros prev. cbn [Re.match_here]. rewrite Hsnoc in *.
    rewrite all_chars_app in Hdot. apply andb_true_iff in Hdot as [Hb Hl].
    simpl in Hl. rewrite andb_true_r in Hl.
    pose proof (plus_lazy_value "" body last pad4 tail Hb Hl Hlast Hp4 Htail)
      as H. by rewrite sapp_nil_l in H. }
  assert (forall prev,
    Re.match_here [Re.Star Re.space; Re.Group1PlusLazy Re.dot;
                   Re.Star Re.space; Re.Eol]
      prev "" (pad3 +:+ value +:+ pad4 +:+ tail) = Some value) as H3.
  { intros prev. apply star_greedy_run; [done| |exact H4].
    rewrite Hhead, sapp_cons. exact Hc. }
  assert (forall prev,
    Re.match_here [Re.Star Re.space; Re.Chr ":"; Re.Star Re.space;
                   Re.Group1PlusLazy Re.dot; Re.Star Re.space; Re.Eol]
      prev "" (pad2 +:+ ":" +:+ pad3 +:+ value +:+ pad4 +:+ tail)
    = Some value) as H1.
  { intros prev. apply star_greedy_run; [done|done|].
    intros prev'. apply H3. }
  assert (exists d w, word = String d w /\ is_space d = false)
    as (d & w & Hw & Hd).
  { destruct word as [|d w]; [done|]. exists d, w. split; [done|].
    simpl in Hword. injection Hword as Hd _.
    by apply (lower_char_not_space _ _ Hd). }
  unfold extract_component, Re.search.
  rewrite (search_from_first _ _ _ value); [done|].
  unfold COMPONENT_RE. cbn [app Re.match_here Re.at_bol].
  apply star_greedy_run; [done|by rewrite Hw, sapp_cons|].
  intros prev. by apply match_lit.
Qed.


(** ** The header cell *)

Section LowerFacts.

Lemma lower_app (a b : string) : lower (a +:+ b) = lower a +:+ lower b.
Proof. induction a as [|c a IH]; [done|]. simpl. by rewrite !sapp_cons, IH. Qed.

Lemma lower_char_colon (c : ascii) :
  lower_char c = ":"%char -> c = ":"%char.
Proof.
  destruct c as [[] [] [] [] [] [] [] []]; vm_compute; congruence.
Qed.

(** A string whose lower-case form starts with [p] starts with a text
    whose lower-case form is [p]. *)
Lemma startswith_lower (s p : string) :
  startswith (lower s) p = true ->
  exists a b, s = a +:+ b /\ lower a = p.
Proof.
  revert s. induction p as [|q p IH]; intros s.
  - intros _. by exists "", s.
  - destruct s as [|c s]; [done|]. simpl lower. rewrite startswith_cons.
    intros [Hc (a & b & -> & <-)%IH]%andb_true_iff.
    apply Ascii.eqb_eq in Hc as ->. by exists (String c a), b.
Qed.

Lemma lower_eq_app (a p1 p2 : string) :
  lower a = p1 +:+ p2 ->
  exists a1 a2, a = a1 +:+ a2 /\ lower a1 = p1 /\ lower a2 = p2.
Proof.
  revert a. induction p1 as [|q p1 IH]; intros a.
  - intros H. by exists "", a.
  - destruct a as [|c a]; [done|]. simpl lower. rewrite sapp_cons.
    intros [= <- (a1 & a2 & -> & <- & <-)%IH].
    by exists (String c a1), a2.
Qed.

Lemma lower_keeps_colon_free (a : string) :
  str_in ":" (lower a) = false -> str_in ":" a = false.
Proof.
  induction a as [|c a IH]; [done|]. simpl lower.
  rewrite !(has_sep_cons ":"). intros [Hc Ha]%orb_false_iff.
  rewrite (IH Ha), orb_false_r.
  destruct (Ascii.eqb_spec c ":") as [->|]; [|done]. done.
Qed.

Lemma split_once_app_sep (sep : ascii) (s rest : string) :
  str_in (String sep "") s = false ->
  split_once sep (s +:+ String sep rest) = [s; rest].
Proof.
  induction s as [|c s IH].
  - intros _. rewrite sapp_nil_l. simpl. by rewrite Ascii.eqb_refl.
  - rewrite has_sep_cons. intros [Hc Hs]%orb_false_iff.
    rewrite sapp_cons. simpl. by rewrite Hc, (IH Hs).
Qed.

(** The text of a component cell is a label that reads "component" in
    lower case, a colon, and a rest; [relabel] keeps the label. *)
Lemma component_cell_label (s value : string) :
  startswith (lower s) "component:" = true ->
  exists label rest,
    s = label +:+ ":" +:+ rest /\ lower label = "component"
    /\ relabel s value = label +:+ ": " +:+ value.
Proof.
  intros (a & rest & -> & Ha)%startswith_lower.
  apply (lower_eq_app a "component" ":") in Ha as (label & c & -> & Hl & Hc).
  destruct c as [|c [|]]; try done. injection Hc as ->%lower_char_colon.
  exists label, rest. rewrite sapp_assoc. split_and!; [done..|].
  unfold relabel. change (":" +:+ rest) with (String ":" rest).
  rewrite split_once_app_sep; [done|].
  apply lower_keeps_colon_free. by rewrite Hl.
Qed.

End LowerFacts.

(** ** Strings in cells *)

Section CheckString.

Lemma bind_Ok {A B} (a : A) (k : A -> result B) : (Ok a ≫= k) = k a.
Proof. reflexivity. Qed.

Lemma bind_Raise {A B} (e : exn) (k : A -> result B) :
  (Raise e ≫= k) = Raise e.
Proof. reflexivity. Qed.

Lemma str_take_all (n : N) (s : string) :
  (N.of_nat (String.length s) <= n)%N -> str_take n s = s.
Proof.
  revert n. induction s as [|c s IH]; intros n H; [done|]. simpl in *.
  destruct (N.eqb_spec n 0) as [->|Hn]; [lia|]. rewrite IH; [done|lia].
Qed.

Lemma cut_short (s : string) :
  (N.of_nat (String.length s) <= 32767)%N -> cut s = s.
Proof. apply str_take_all. Qed.

Lemma str_take_app (n : N) (a b : string) :
  (N.of_nat (String.length a) <= n)%N ->
  str_take n (a +:+ b) = a +:+ str_take (n - N.of_nat (String.length a)) b.
Proof.
  revert n. induction a as [|c a IH]; intros n H.
  - rewrite !sapp_nil_l. simpl. by rewrite N.sub_0_r.
  - rewrite !sapp_cons. simpl in *.
    destruct (N.eqb_spec n 0) as [->|Hn]; [lia|].
    rewrite IH by lia. do 3 f_equal. lia.
Qed.

Lemma check_string_storable (s : string) :
  storable s -> check_string s = Ok (cut s).
Proof. unfold storable, check_string, cut. by intros ->. Qed.

Lemma check_string_refused (s : string) :
  ~ storable s -> check_string s = Raise (IllegalCharacterError (cut s)).
Proof.
  unfold storable, check_string, cut.
  by destruct (has_illegal_char (str_take 32767 s)).
Qed.

Lemma check_string_Ok (s t : string) :
  check_string s = Ok t -> t = cut s /\ storable s.
Proof.
  unfold storable, check_string, cut.
  destruct (has_illegal_char (str_take 32767 s)); [done|]. by intros [= <-].
Qed.

(** A short string without refused characters is stored as it is. *)
Lemma check_string_fits (s : string) :
  (N.of_nat (String.length s) <= 32767)%N -> has_illegal_char s = false ->
  check_string s = Ok s.
Proof.
  intros Hlen Hok. rewrite check_string_storable; [by rewrite cut_short|].
  unfold storable. by rewrite cut_short.
Qed.


Lemma cell_assign_storable (ws : worksheet) (r c : nat)
    (v : option string) :
  (forall s, v = Some s -> storable s) ->
  cell_assign ws r c v = Ok (put ws r c v).
Proof.
  destruct v as [s|]; [|done]. intros H. simpl.
  by rewrite check_string_storable by auto.
Qed.

Lemma cell_assign_fits (ws : worksheet) (r c : nat) (s : string) :
  (N.of_nat (String.length s) <= 32767)%N -> has_illegal_char s = false ->
  cell_assign ws r c (Some s) = Ok (<[(r, c) := VStr s]> ws).
Proof. intros Hlen Hok. simpl. by rewrite check_string_fits. Qed.

Lemma cell_assign_refused (ws : worksheet) (r c : nat) (s : string) :
  ~ storable s ->
  cell_assign ws r c (Some s) = Raise (IllegalCharacterError (cut s)).
Proof. intros H. simpl. by rewrite check_string_refused. Qed.

End CheckString.

Section HeaderScan.

Variables label_low value : string.
Variable ws : worksheet.

Local Abbreviation is_label p := (is_label_cell label_low (ws !! p)).

Lemma set_header_cols_skip (r : nat) (cs1 cs2 : list nat) :
  (forall c, c ∈ cs1 -> is_label (r, c) = false) ->
  set_header_cols label_low value ws r (cs1 ++ cs2)
  = set_header_cols label_low value ws r cs2.
Proof.
  induction cs1 as [|c cs1 IH]; intros H; [done|]. simpl.
  pose proof (H c (list_elem_of_here _ _)) as Hc.
  unfold is_label_cell in Hc.
  destruct (ws !! (r, c)) as [[s|n]|]; [rewrite Hc|..];
    apply IH; intros c' Hc'; apply H; by apply list_elem_of_further.
Qed.

Lemma set_header_cols_none (r : nat) (cols : list nat) :
  (forall c, c ∈ cols -> is_label (r, c) = false) ->
  set_header_cols label_low value ws r cols = Ok None.
Proof.
  intros H. rewrite <- (app_nil_r cols). by rewrite set_header_cols_skip.
Qed.

(** The rewrite of a cell that is found: one checked assignment. *)
Lemma set_header_cols_hit (r c : nat) (cs : list nat) (s : string) :
  ws !! (r, c) = Some (VStr s) ->
  startswith (lower s) (label_low +:+ ":") = true ->
  set_header_cols label_low value ws r (c :: cs)
  = Some <$> cell_assign ws r c (Some (relabel s value)).
Proof.
  intros H1 H2. simpl. rewrite H1, H2.
  by destruct (check_string (relabel s value)).
Qed.

Lemma set_header_rows_skip (rs1 rs2 cols : list nat) :
  (forall r c, r ∈ rs1 -> c ∈ cols -> is_label (r, c) = false) ->
  set_header_rows label_low value ws (rs1 ++ rs2) cols
  = set_header_rows label_low value ws rs2 cols.
Proof.
  induction rs1 as [|r rs1 IH]; intros H; [done|]. simpl.
  rewrite set_header_cols_none.
  - apply IH. intros r' c Hr'. apply H. by apply list_elem_of_further.
  - intros c. apply H, list_elem_of_here.
Qed.

Lemma set_header_rows_hit (r : nat) (rows cols : list nat)
    (found : result worksheet) :
  set_header_cols label_low value ws r cols = Some <$> found ->
  set_header_rows label_low value ws (r :: rows) cols = Some <$> found.
Proof. intros H. simpl. rewrite H. by destruct found. Qed.

Lemma set_header_rows_none (rows cols : list nat) :
  (forall r c, r ∈ rows -> c ∈ cols -> is_label (r, c) = false) ->
  set_header_rows label_low value ws rows cols = Ok None.
Proof.
  intros H. rewrite <- (app_nil_r rows). by rewrite set_header_rows_skip.
Qed.

(** The scan of a row: it finds no cell, or it stops at the first cell
    with the label, which it rewrites. *)
Lemma set_header_cols_cases (r : nat) (cols : list nat) :
  (set_header_cols label_low value ws r cols = Ok None
   /\ forall c, c ∈ cols -> is_label (r, c) = false)
  \/ exists cs1 c cs2 s,
       cols = cs1 ++ c :: cs2
       /\ (forall c', c' ∈ cs1 -> is_label (r, c') = false)
       /\ ws !! (r, c) = Some (VStr s)
       /\ startswith (lower s) (label_low +:+ ":") = true
       /\ set_header_cols label_low value ws r cols
          = Some <$> cell_assign ws r c (Some (relabel s value)).
Proof.
  induction cols as [|c cols IH].
  - left. split; [done|]. intros c Hc. by apply elem_of_nil in Hc.
  - destruct (is_label (r, c)) eqn:Hc.
    + right. unfold is_label_cell in Hc.
      destruct (ws !! (r, c)) as [[s|n]|] eqn:E; [|done..].
      exists [], c, cols, s. split_and!; try done.
      * intros c' Hc'. by apply elem_of_nil in Hc'.
      * by apply set_header_cols_hit.
    + assert (set_header_cols label_low value ws r (c :: cols)
              = set_header_cols label_low value ws r cols) as Hskip.
      { apply (set_header_cols_skip r [c] cols).
        by intros c' ->%list_elem_of_singleton. }
      destruct IH as [[Hnone Hall]
                     |(cs1 & c0 & cs2 & s & -> & Hcs1 & Hs & Hl & Hrun)].
      * left. split; [by rewrite Hskip|].
        intros c' [->|Hc']%elem_of_cons; auto.
      * right. exists (c :: cs1), c0, cs2, s. split_and!; try done.
        -- intros c' [->|Hc']%elem_of_cons; auto.
        -- by rewrite Hskip.
Qed.

Lemma set_header_rows_cases (rows cols : list nat) :
  (set_header_rows label_low value ws rows cols = Ok None
   /\ forall r c, r ∈ rows -> c ∈ cols -> is_label (r, c) = false)
  \/ exists rs1 r rs2 cs1 c cs2 s,
       rows = rs1 ++ r :: rs2 /\ cols = cs1 ++ c :: cs2
       /\ (forall r' c', r' ∈ rs1 -> c' ∈ cols -> is_label (r', c') = false)
       /\ (forall c', c' ∈ cs1 -> is_label (r, c') = false)
       /\ ws !! (r, c) = Some (VStr s)
       /\ startswith (lower s) (label_low +:+ ":") = true
       /\ set_header_rows label_low value ws rows cols
          = Some <$> cell_assign ws r c (Some (relabel s value)).
Proof.
  induction rows as [|r rows IH].
  - left. split; [done|]. intros r c Hr. by apply elem_of_nil in Hr.
  - destruct (set_header_cols_cases r cols)
      as [[Hnone Hall]|(cs1 & c & cs2 & s & Hcols & Hcs1 & Hs & Hl & Hrun)].
    + assert (set_header_rows label_low value ws (r :: rows) cols
              = set_header_rows label_low value ws rows cols) as Hskip
        by (simpl; by rewrite Hnone).
      destruct IH as [[Hnone' Hall']
                     |(rs1 & r0 & rs2 & cs1 & c & cs2 & s
                       & -> & Hcols & Hrs1 & Hcs1 & Hs & Hl & Hrun)].
      * left. split; [by rewrite Hskip|].
        intros r' c [->|Hr']%elem_of_cons Hc; auto.
      * right. exists (r :: rs1), r0, rs2, cs1, c, cs2, s.
        split_and!; try done.
        -- intros r' c' [->|Hr']%elem_of_cons Hc'; auto.
        -- by rewrite Hskip.
    + right. exists [], r, rows, cs1, c, cs2, s. split_and!; try done.
      * intros r' c' Hr'. by apply elem_of_nil in Hr'.
      * by apply set_header_rows_hit.
Qed.

(** The scan when the first cell with the label is known. *)
Lemma set_header_rows_at (rs1 : list nat) (r : nat) (rs2 cs1 : list nat)
    (c : nat) (cs2 : list nat) (s : string) :
  (forall r' c', r' ∈ rs1 -> c' ∈ cs1 ++ c :: cs2 ->
                 is_label (r', c') = false) ->
  (forall c', c' ∈ cs1 -> is_label (r, c') = false) ->
  ws !! (r, c) = Some (VStr s) ->
  startswith (lower s) (label_low +:+ ":") = true ->
  set_header_rows label_low value ws (rs1 ++ r :: rs2) (cs1 ++ c :: cs2)
  = Some <$> cell_assign ws r c (Some (relabel s value)).
Proof.
  intros Hrs1 Hcs1 Hs Hl. rewrite set_header_rows_skip by done.
  apply set_header_rows_hit. rewrite set_header_cols_skip by done.
  by apply set_header_cols_hit.
Qed.

End HeaderScan.

Lemma seq_split_at (a n x : nat) :
  a <= x < a + n -> seq a n = seq a (x - a) ++ x :: seq (S x) (a + n - S x).
Proof.
  intros H. replace n with ((x - a) + S (a + n - S x)) at 1 by lia.
  rewrite seq_app. simpl. do 3 f_equal; lia.
Qed.

Lemma seq_split_inv (a n : nat) (l1 : list nat) (x : nat) (l2 : list nat) :
  seq a n = l1 ++ x :: l2 -> l1 = seq a (x - a) /\ a <= x.
Proof.
  revert a n. induction l1 as [|y l1 IH]; intros a n H.
  - destruct n as [|n]; [done|]. injection H as -> _.
    by rewrite Nat.sub_diag.
  - destruct n as [|n]; [done|]. injection H as <- H.
    apply IH in H as [-> Hx]. split; [|lia].
    by replace (x - a) with (S (x - S a)) by lia.
Qed.

Lemma in_region_seq (p : nat * nat) :
  in_region p <-> p.1 ∈ seq 1 9 /\ p.2 ∈ seq 1 11.
Proof. unfold in_region. rewrite !elem_of_seq. lia. Qed.

Lemma label_low_Component : rstrip_char ":" (lower "Component") = "component".
Proof. reflexivity. Qed.

(** The header step as one checked assignment: to the first component
    cell of the region, or to the cell of row 2, column 5. *)
Lemma inject_component_found (component_name : string) (ws : worksheet)
    (r c : nat) (s : string) :
  in_region (r, c) -> ws !! (r, c) = Some (VStr s) ->
  startswith (lower s) "component:" = true ->
  (forall q, in_region q -> scanned_before q (r, c) ->
             is_component_cell ws q = false) ->
  inject_component component_name ws
  = cell_assign ws r c (Some (relabel s component_name)).
Proof.
  intros [Hr Hc] Hs Hlabel Hfirst. simpl in Hr, Hc.
  unfold inject_component, set_header. rewrite label_low_Component.
  rewrite (seq_split_at 1 9 r), (seq_split_at 1 11 c) by lia.
  rewrite (set_header_rows_at "component" component_name ws _ _ _ _ _ _ s);
    try done.
  - by destruct (cell_assign ws r c (Some (relabel s component_name))).
  - rewrite <- (seq_split_at 1 11 c) by lia.
    intros r' c' Hr'%elem_of_seq Hc'%elem_of_seq.
    apply (Hfirst (r', c')); [split; simpl; lia|]. left. simpl. lia.
  - intros c' Hc'%elem_of_seq.
    apply (Hfirst (r, c')); [split; simpl; lia|]. right. simpl. lia.
Qed.

Lemma inject_component_fallback (component_name : string) (ws : worksheet) :
  (forall q, in_region q -> is_component_cell ws q = false) ->
  inject_component component_name ws
  = cell_assign ws 2 5 (Some ("Component: " +:+ component_name)).
Proof.
  intros Hnone. unfold inject_component, set_header.
  rewrite label_low_Component, set_header_rows_none; [done|].
  intros r c Hr Hc. apply (Hnone (r, c)). by apply in_region_seq.
Qed.

(** C7, as the specification states it: with no component cell in the
    region, the cell of row 2, column 5 would be set to "Component: " and
    the name.  It is not when the name holds a control character that
    openpyxl refuses: the assignment raises, and no cell is set. *)
Lemma inject_component_refuses_control_character :
  (forall q, in_region q -> is_component_cell ∅ q = false)
  /\ inject_component BAD_NAME ∅
     = Raise (IllegalCharacterError ("Component: " +:+ BAD_NAME)).
Proof.
  split; [|reflexivity].
  intros q _. unfold is_component_cell. by rewrite lookup_empty.
Qed.

(** C7, amended: when a cell of rows 1 to 9, columns 1 to 11 holds a
    string that starts with "component:" in lower case, the header step is
    one assignment to the first such cell in the order of the scan (row by
    row, column by column), of the cell's own label, a colon, a space and
    the component name; when the region has no such cell, it is one
    assignment of "Component: " and the name to the cell of row 2, column
    5.  The assignment is openpyxl's: a text of at most 32767 characters
    without a refused control character is stored as it is, and nothing
    else changes; a longer one is cut, and a refused character makes the
    step raise instead. *)
Theorem inject_component_header (component_name : string) (ws : worksheet) :
  (forall p s,
      in_region p -> ws !! p = Some (VStr s) ->
      startswith (lower s) "component:" = true ->
      (forall q, in_region q -> scanned_before q p ->
                 is_component_cell ws q = false) ->
      (exists label rest,
          s = label +:+ ":" +:+ rest /\ lower label = "component"
          /\ relabel s component_name = label +:+ ": " +:+ component_name)
      /\ inject_component component_name ws
         = cell_assign ws p.1 p.2 (Some (relabel s component_name))
      /\ ((N.of_nat (String.length (relabel s component_name)) <= 32767)%N ->
          has_illegal_char (relabel s component_name) = false ->
          inject_component component_name ws
          = Ok (<[p := VStr (relabel s component_name)]> ws)))
  /\ ((forall q, in_region q -> is_component_cell ws q = false) ->
      inject_component component_name ws
      = cell_assign ws 2 5 (Some ("Component: " +:+ component_name))
      /\ ((N.of_nat (String.length ("Component: " +:+ component_name))
           <= 32767)%N ->
          has_illegal_char ("Component: " +:+ component_name) = false ->
          inject_component component_name ws
          = Ok (<[(2, 5) := VStr ("Component: " +:+ component_name)]> ws))).
Proof.
  split.
  - intros [r c] s Hp Hs Hlabel Hfirst.
    pose proof (inject_component_found component_name ws r c s
                  Hp Hs Hlabel Hfirst) as Hrun.
    split; [|split; [exact Hrun|]].
    + destruct (component_cell_label s component_name Hlabel)
        as (label & rest & ? & ? & ?). by exists label, rest.
    + intros Hlen Hok. rewrite Hrun. by apply cell_assign_fits.
  - intros Hnone.
    pose proof (inject_component_fallback component_name ws Hnone) as Hrun.
    split; [exact Hrun|].
    intros Hlen Hok. rewrite Hrun. by apply cell_assign_fits.
Qed.

Lemma inject_component_header_witness :
  inject_component "Login"
    {[ (3, 4) := VStr "COMPONENT: old"; (3, 5) := VStr "Component: b" ]}
  = Ok (<[(3, 4) := VStr "COMPONENT: Login"]>
          {[ (3, 4) := VStr "COMPONENT: old"; (3, 5) := VStr "Component: b" ]})
  /\ inject_component "Unknown" ∅
     = Ok (<[(2, 5) := VStr "Component: Unknown"]> ∅).
Proof.
  split.
  - apply (proj1 (inject_component_header "Login" _) (3, 4) "COMPONENT: old").
    + split; simpl; lia.
    + reflexivity.
    + reflexivity.
    + intros [r c] _ Hq. unfold is_component_cell.
      assert ((r, c) <> (3, 4) /\ (r, c) <> (3, 5)) as [H4 H5].
      { destruct Hq as [Hq|[Hq1 Hq2]]; simpl in *; split; intros [= -> ->]; lia. }
      rewrite lookup_insert_ne, lookup_singleton_ne; done.
    + simpl. lia.
    + reflexivity.
  - apply (proj2 (inject_component_header "Unknown" ∅)).
    + intros q _. unfold is_component_cell. by rewrite lookup_empty.
    + simpl. lia.
    + reflexivity.
Defined.

(** ** The data rows *)

Section RowFacts.

Lemma put_lookup_eq (ws : worksheet) (r c : nat) (v : option string) :
  put ws r c v !! (r, c)
  = match v with Some s => Some (VStr (cut s)) | None => ws !! (r, c) end.
Proof. destruct v; [apply lookup_insert_eq|done]. Qed.

Lemma put_lookup_ne (ws : worksheet) (r c : nat) (v : option string)
    (p : nat * nat) :
  p <> (r, c) -> put ws r c v !! p = ws !! p.
Proof. intros H. destruct v; [by apply lookup_insert_ne|done]. Qed.

Lemma put_row_other (ws : worksheet) (row : nat)
    (tc : gmap string string) (r c : nat) :
  r <> row \/ c < 2 \/ 8 < c ->
  put_row ws row tc !! (r, c) = ws !! (r, c).
Proof.
  intros H. unfold put_row.
  rewrite !put_lookup_ne; [done|intros [= -> ->]; lia..].
Qed.

Lemma put_row_field (ws : worksheet) (row : nat)
    (tc : gmap string string) (j : nat) (field : string) :
  FIELDS !! j = Some field ->
  put_row ws row tc !! (row, 2 + j)
  = match tc !! field with
    | Some v => Some (VStr (cut v))
    | None => ws !! (row, 2 + j)
    end.
Proof.
  intros Hj. unfold put_row.
  do 7 (destruct j as [|j];
        [injection Hj as <-; simpl;
         repeat first
           [ rewrite put_lookup_eq
           | rewrite put_lookup_ne by (intros [=]; lia) ];
         by destruct (tc !! _)|]).
  done.
Qed.

Lemma put_rows_other (ws : worksheet) (i : nat)
    (test_cases : list (gmap string string)) (r c : nat) :
  r < start_row + i \/ start_row + i + length test_cases <= r
  \/ c < 2 \/ 8 < c ->
  put_rows ws i test_cases !! (r, c) = ws !! (r, c).
Proof.
  unfold start_row. revert ws i.
  induction test_cases as [|tc rest IH]; intros ws i H; [done|].
  cbn [put_rows length] in *. unfold start_row.
  rewrite IH by lia. apply put_row_other. lia.
Qed.

Lemma put_rows_field (ws : worksheet) (i k : nat)
    (test_cases : list (gmap string string)) (tc : gmap string string)
    (j : nat) (field : string) :
  test_cases !! k = Some tc -> FIELDS !! j = Some field ->
  put_rows ws i test_cases !! (start_row + i + k, 2 + j)
  = match tc !! field with
    | Some v => Some (VStr (cut v))
    | None => ws !! (start_row + i + k, 2 + j)
    end.
Proof.
  revert ws i k.
  induction test_cases as [|tc0 rest IH]; intros ws i k Hk Hj; [done|].
  cbn [put_rows]. destruct k as [|k]; simpl in Hk.
  - injection Hk as ->. rewrite put_rows_other by lia.
    rewrite Nat.add_0_r. by apply put_row_field.
  - replace (start_row + i + S k) with (start_row + S i + k) by lia.
    rewrite (IH _ _ _ Hk Hj). destruct (tc !! field); [done|].
    apply put_row_other. lia.
Qed.


Lemma write_row_storable (ws : worksheet) (row : nat)
    (tc : gmap string string) :
  (forall field v, field ∈ FIELDS -> tc !! field = Some v -> storable v) ->
  write_row ws row tc = Ok (put_row ws row tc).
Proof.
  intros H.
  assert (forall j field, FIELDS !! j = Some field ->
            forall v, tc !! field = Some v -> storable v) as Hj.
  { intros j field Hf v. eapply H, list_elem_of_lookup_2, Hf. }
  unfold write_row, put_row.
  rewrite (cell_assign_storable _ _ _ _ (Hj 0 _ eq_refl)), bind_Ok.
  rewrite (cell_assign_storable _ _ _ _ (Hj 1 _ eq_refl)), bind_Ok.
  rewrite (cell_assign_storable _ _ _ _ (Hj 2 _ eq_refl)), bind_Ok.
  rewrite (cell_assign_storable _ _ _ _ (Hj 3 _ eq_refl)), bind_Ok.
  rewrite (cell_assign_storable _ _ _ _ (Hj 4 _ eq_refl)), bind_Ok.
  rewrite (cell_assign_storable _ _ _ _ (Hj 5 _ eq_refl)), bind_Ok.
  apply (cell_assign_storable _ _ _ _ (Hj 6 _ eq_refl)).
Qed.



Lemma fill_rows_storable (ws : worksheet) (i : nat)
    (test_cases : list (gmap string string)) :
  field_values_storable test_cases ->
  fill_rows ws i test_cases = Ok (put_rows ws i test_cases).
Proof.
  revert ws i. induction test_cases as [|tc rest IH]; intros ws i H; [done|].
  cbn [fill_rows put_rows]. rewrite write_row_storable, bind_Ok.
  - apply IH. intros tc' field v Htc'. apply H. by apply list_elem_of_further.
  - intros field v. apply H, list_elem_of_here.
Qed.


(** The header step, when it raises nothing: it stopped at the first
    component cell of the region and rewrote it, or it found none and wrote
    the cell of row 2, column 5. *)
Lemma inject_component_Ok (component_name : string) (ws ws' : worksheet) :
  inject_component component_name ws = Ok ws' ->
  (exists r c s,
      in_region (r, c) /\ ws !! (r, c) = Some (VStr s)
      /\ startswith (lower s) "component:" = true
      /\ (forall q, in_region q -> scanned_before q (r, c) ->
                    is_component_cell ws q = false)
      /\ storable (relabel s component_name)
      /\ ws' = <[(r, c) := VStr (cut (relabel s component_name))]> ws)
  \/ ((forall q, in_region q -> is_component_cell ws q = false)
      /\ storable ("Component: " +:+ component_name)
      /\ ws' = <[(2, 5) := VStr (cut ("Component: " +:+ component_name))]> ws).
Proof.
  unfold inject_component, set_header. rewrite label_low_Component.
  destruct (set_header_rows_cases "component" component_name ws
              (seq 1 9) (seq 1 11))
    as [[Hnone Hall]
       |(rs1 & r & rs2 & cs1 & c & cs2 & s
         & Hrows & Hcols & Hrs1 & Hcs1 & Hs & Hl & Hrun)].
  - rewrite Hnone, !bind_Ok. cbn [cell_assign].
    destruct (check_string _) as [t|e] eqn:E; [|done].
    apply check_string_Ok in E as [-> Hst]. rewrite bind_Ok. intros [= <-].
    right. split_and!; [|done..].
    intros [r c] [Hr Hc]%in_region_seq. by apply Hall.
  - rewrite Hrun. cbn [cell_assign].
    destruct (check_string (relabel s component_name)) as [t|e] eqn:E;
      cbn [mbind result_bind fmap result_fmap]; [|done].
    apply check_string_Ok in E as [-> Hst]. intros [= <-].
    left. exists r, c, s. split_and!; try done.
    + apply in_region_seq. cbn [fst snd]. rewrite Hrows, Hcols.
      split; apply elem_of_app; right; apply list_elem_of_here.
    + destruct (seq_split_inv _ _ _ _ _ Hrows) as [Hrs1' ?].
      destruct (seq_split_inv _ _ _ _ _ Hcols) as [Hcs1' ?].
      intros [r' c'] [Hr' Hc']%in_region_seq Hq.
      unfold scanned_before in Hq. cbn [fst snd] in *.
      apply elem_of_seq in Hr' as Hr''. apply elem_of_seq in Hc' as Hc''.
      destruct Hq as [Hq|[-> Hq]].
      * apply Hrs1; [|done]. rewrite Hrs1'. apply elem_of_seq. lia.
      * apply Hcs1. rewrite Hcs1'. apply elem_of_seq. lia.
Qed.


(** The call, when the template is there and has the sheet. *)
Lemma fill_excel_template_unfold (write_error : string -> option exn)
    (test_cases : list (gmap string string))
    (template_path output_path component_name : string)
    (fs : files) (wb : workbook) (ws : worksheet) :
  fs !! template_path = Some wb -> wb !! "Testcases" = Some ws ->
  fill_excel_template write_error test_cases template_path output_path
    component_name fs
  = ws0 ← inject_component component_name ws;
    ws' ← fill_rows ws0 0 test_cases;
    match write_error output_path with
    | Some e => Raise e
    | None => Ok (<[output_path := <["Testcases" := ws']> wb]> fs)
    end.
Proof. intros Hwb Hws. unfold fill_excel_template. by rewrite Hwb, Hws. Qed.


End RowFacts.




(** ** What the call leaves alone *)




(** * Further properties of the code *)

(** ** Cells and rows *)

(** What [clean_cell] returns holds no ["<br>"] and no literal backslash-n,
    and has no whitespace at either end. *)
Theorem clean_cell_normal_form (value : string) :
  str_in "<br>" (clean_cell value) = false
  /\ str_in "\n" (clean_cell value) = false
  /\ strip (clean_cell value) = clean_cell value.
Proof.
  auto using clean_cell_no_br, clean_cell_no_backslash_n,
    clean_cell_stripped.
Qed.

Section JoinFacts.

Variable sep : ascii.

Lemma join_cons (x : string) (rest : list string) :
  rest <> [] -> join sep (x :: rest) = x +:+ String sep (join sep rest).
Proof. by destruct rest. Qed.

Lemma join_snoc (pieces : list string) (x : string) :
  pieces <> [] ->
  join sep (pieces ++ [x]) = join sep pieces +:+ String sep x.
Proof.
  induction pieces as [|y [|z rest] IH]; [done|done|]. intros _.
  change ((y :: z :: rest) ++ [x]) with (y :: (z :: rest) ++ [x]).
  rewrite join_cons by done. rewrite IH by done.
  rewrite (join_cons y (z :: rest)) by done.
  by rewrite sapp_assoc, sapp_cons.
Qed.

End JoinFacts.

Lemma framed_row_join (cells : list string) :
  cells <> [] -> framed_row cells = join "|" ("" :: cells ++ [""]).
Proof.
  intros H. unfold framed_row.
  rewrite join_cons by (by destruct cells).
  rewrite join_snoc by done. by rewrite sapp_nil_l.
Qed.

(** A row written with its frame gives its cells back: as many cells as
    were written, each normalised, the pieces before the first and after
    the last separator being the empty ones that are dropped. *)
Theorem framed_row_cells (cells : list string) :
  cells <> [] -> Forall (fun s => str_in "|" s = false) cells ->
  row_segments (framed_row cells) = cells
  /\ row_cells (framed_row cells) = clean_cell <$> cells
  /\ header_fields (framed_row cells) = strip <$> cells.
Proof.
  intros Hne Hbar.
  assert (row_segments (framed_row cells) = cells) as H.
  { rewrite framed_row_join by done. apply row_segments_join.
    apply Forall_cons. split; [done|].
    apply Forall_app. split; [done|]. by repeat constructor. }
  unfold row_cells, header_fields. by rewrite H.
Qed.

Lemma framed_row_cells_witness :
  row_cells (framed_row [" TC001 "; " Enter<br>creds "; " "])
  = ["TC001"; "Enter" +:+ NL +:+ "creds"; ""].
Proof.
  apply (framed_row_cells [" TC001 "; " Enter<br>creds "; " "]).
  - discriminate.
  - repeat constructor.
Defined.

(** ** The table parser, in general *)

Section ParserShape.

Lemma find_header_shift (i n : nat) (lines : list string) :
  find_header (i + n) lines = (fun k => k + n) <$> find_header i lines.
Proof.
  revert i. induction lines as [|l ls IH]; intros i; [done|]. simpl.
  destruct (is_header_line l); [done|]. apply (IH (S i)).
Qed.

Lemma find_header_skip (i : nat) (pre lines : list string) :
  Forall (fun l => is_header_line l = false) pre ->
  find_header i (pre ++ lines) = find_header (i + length pre) lines.
Proof.
  revert i. induction pre as [|l ls IH]; intros i H; simpl.
  - by rewrite Nat.add_0_r.
  - apply Forall_cons in H as [Hl H]. rewrite Hl, IH by done.
    f_equal. lia.
Qed.

Lemma find_header_app (i k : nat) (lines more : list string) :
  find_header i lines = Some k -> find_header i (lines ++ more) = Some k.
Proof.
  revert i. induction lines as [|l ls IH]; intros i; [done|]. simpl.
  destruct (is_header_line l); [done|]. apply IH.
Qed.

Lemma find_header_Exists (i : nat) (lines : list string) :
  Exists (fun l => is_header_line l = true) lines ->
  exists k, find_header i lines = Some k /\ i <= k < i + length lines.
Proof.
  revert i. induction lines as [|l ls IH]; intros i H.
  - by apply Exists_nil in H.
  - simpl. destruct (is_header_line l) eqn:E.
    + exists i. split; [done|lia].
    + apply Exists_cons in H as [H|H]; [congruence|].
      destruct (IH (S i) H) as (k & Hk & ?). exists k. split; [done|lia].
Qed.

(** The second loop returns what it had, and then a part of the front of
    what it is given. *)
Lemma collect_table_prefix (acc lines : list string) :
  acc <> [] ->
  exists more rest,
    lines = more ++ rest /\ collect_table acc lines = acc ++ more.
Proof.
  revert acc. induction lines as [|l ls IH]; intros acc Hacc.
  - exists [], []. split; [done|]. simpl. by rewrite app_nil_r.
  - simpl. destruct (str_in "|" l).
    + destruct (IH (acc ++ [l])) as (more & rest & -> & ->);
        [by destruct acc|].
      exists (l :: more), rest. by rewrite <- app_assoc.
    + exists [], (l :: ls). rewrite app_nil_r. by destruct acc.
Qed.

(** A line without a separator ends the loop, once a line with one has
    been met: what follows it is not looked at. *)
Lemma collect_table_cut (acc lines : list string) (l : string)
    (junk : list string) :
  acc <> [] \/ Exists (fun x => str_in "|" x = true) lines ->
  str_in "|" l = false ->
  collect_table acc (lines ++ l :: junk) = collect_table acc lines.
Proof.
  revert acc. induction lines as [|m ms IH]; intros acc H Hl.
  - destruct H as [H|H]; [|by apply Exists_nil in H].
    simpl. rewrite Hl. by destruct acc.
  - simpl. destruct (str_in "|" m) eqn:E.
    + apply IH; [|done]. left. by destruct acc.
    + destruct acc as [|a acc]; [|done].
      apply IH; [|done]. right.
      destruct H as [H|H]; [done|].
      apply Exists_cons in H as [H|H]; [congruence|done].
Qed.

Lemma parse_markdown_table_unfold (md_full_text : string) :
  parse_markdown_table md_full_text
  = match find_header 0 (splitlines md_full_text) with
    | None => Raise TableNotFoundError
    | Some k => parse_block (drop k (splitlines md_full_text))
    end.
Proof. reflexivity. Qed.

Lemma dict_snoc (pairs : list (string * string)) (k v : string) :
  dict (pairs ++ [(k, v)]) = <[k := v]> (dict pairs).
Proof. unfold dict. by rewrite foldl_app. Qed.

Lemma dict_dom (keys vals : list string) :
  length vals = length keys ->
  dom (dict (zip keys vals)) = list_to_set keys.
Proof.
  intros Hlen. rewrite dict_reverse, dom_list_to_map_L.
  rewrite fmap_reverse, fst_zip by lia.
  apply set_eq. intros x. by rewrite !elem_of_list_to_set, elem_of_reverse.
Qed.

End ParserShape.

(** A header line with fewer than two lines behind it in its block of
    lines with a separator: the parser fails with "Incomplete markdown
    table.", whatever the lines hold. *)
Theorem parse_markdown_table_incomplete
    (md_full_text : string) (pre : list string) (hdr : string)
    (rest post : list string) :
  splitlines md_full_text = pre ++ (hdr :: rest) ++ post ->
  Forall (fun l => is_header_line l = false) pre ->
  is_header_line hdr = true ->
  Forall (fun l => str_in "|" l = true) rest ->
  ends_block post ->
  length rest < 2 ->
  parse_markdown_table md_full_text = Raise IncompleteTableError.
Proof.
  intros Hlines Hpre Hhdr Hrest Hpost Hlen.
  rewrite parse_markdown_table_unfold, Hlines.
  change ((hdr :: rest) ++ post) with (hdr :: rest ++ post).
  rewrite find_header_first by done. simpl Nat.add. rewrite drop_app_length.
  unfold parse_block.
  change (hdr :: rest ++ post) with ((hdr :: rest) ++ post).
  rewrite collect_table_block; [|apply Forall_cons; split; [|done]|done..].
  - rewrite app_nil_l. simpl length.
    destruct (Nat.ltb_spec (S (length rest)) 3); [done|lia].
  - by apply andb_true_iff in Hhdr as [? _].
Qed.

Lemma parse_markdown_table_incomplete_witness :
  parse_markdown_table
    (ln "Component: Login" +:+ ln "| Test Case ID | Remarks |" +:+
     ln "|---|---|" +:+ "No rows were generated.")
  = Raise IncompleteTableError.
Proof.
  apply (parse_markdown_table_incomplete _ ["Component: Login"]
           "| Test Case ID | Remarks |" ["|---|---|"]
           ["No rows were generated."]).
  - reflexivity.
  - repeat constructor.
  - reflexivity.
  - repeat constructor.
  - reflexivity.
  - simpl. lia.
Defined.

(** Whatever the response, the records that are returned come from lines
    of the response: one header line and rows with as many cells as the
    header has fields; and every record has the header's field names, no
    more and no fewer, as its keys. *)
Theorem parse_markdown_table_records
    (md_full_text : string) (test_cases : list (gmap string string)) :
  parse_markdown_table md_full_text = Ok test_cases ->
  exists (hdr : string) (rows : list string),
    hdr ∈ splitlines md_full_text
    /\ is_header_line hdr = true
    /\ (forall row, row ∈ rows -> row ∈ splitlines md_full_text)
    /\ test_cases
       = (record (header_fields hdr)
            <$> filter (kept_row (header_fields hdr)) rows)
    /\ Forall (fun tc => dom tc = list_to_set (header_fields hdr))
         test_cases.
Proof.
  rewrite parse_markdown_table_unfold.
  destruct (find_header 0 (splitlines md_full_text)) as [k|] eqn:Ek; [|done].
  apply find_header_Some in Ek as (hdr & Hk & Hhdr & _).
  rewrite Nat.sub_0_r in Hk. rewrite (drop_S _ _ _ Hk).
  unfold parse_block. simpl collect_table.
  pose proof Hhdr as [Hbar _]%andb_true_iff. rewrite Hbar.
  destruct (collect_table_prefix [hdr] (drop (S k) (splitlines md_full_text)))
    as (more & rest & Hmore & ->); [done|].
  destruct (_ <? 3); [done|]. simpl nth. simpl drop.
  rewrite foldl_add_row, app_nil_l.
  intros H. exists hdr, (drop 1 more).
  assert (test_cases
          = record (header_fields hdr)
              <$> filter (kept_row (header_fields hdr)) (drop 1 more)) as ->.
  { by destruct (record _ <$> _); [|injection H]. }
  split_and!; [|done| |done|].
  - by eapply list_elem_of_lookup_2.
  - intros row Hrow%(subseteq_drop 1).
    apply (subseteq_drop (S k)). rewrite Hmore.
    apply elem_of_app. by left.
  - apply Forall_fmap, Forall_forall.
    intros row [Hrow _]%list_elem_of_filter. by apply dict_dom.
Qed.

Lemma parse_markdown_table_records_witness :
  exists (hdr : string) (rows : list string),
    hdr ∈ splitlines SCENARIO_C
    /\ is_header_line hdr = true
    /\ (forall row, row ∈ rows -> row ∈ splitlines SCENARIO_C)
    /\ [record FIELDS
          "| TC001 | None | Valid login | Enter creds | Success | | |"]
       = (record (header_fields hdr)
            <$> filter (kept_row (header_fields hdr)) rows)
    /\ Forall (fun tc => dom tc = list_to_set (header_fields hdr))
         [record FIELDS
            "| TC001 | None | Valid login | Enter creds | Success | | |"].
Proof.
  apply (parse_markdown_table_records SCENARIO_C). reflexivity.
Defined.

(** Text around the table does not count: lines without a header line
    before it, and anything after a line without a separator behind it,
    leave the result (records or failure) as it is for the table alone. *)
Theorem parse_markdown_table_ignores_prose
    (md_full_text table : string) (pre post : list string) :
  splitlines md_full_text = pre ++ splitlines table ++ post ->
  Forall (fun l => is_header_line l = false) pre ->
  Exists (fun l => is_header_line l = true) (splitlines table) ->
  ends_block post ->
  parse_markdown_table md_full_text = parse_markdown_table table.
Proof.
  intros Hlines Hpre Hex Hpost. rewrite !parse_markdown_table_unfold, Hlines.
  destruct (find_header_Exists 0 _ Hex) as (k & Hk & Hlt).
  rewrite find_header_skip by done.
  rewrite (find_header_shift 0 (length pre)).
  rewrite (find_header_app _ _ _ post Hk), Hk. simpl.
  rewrite drop_app_ge by lia.
  replace (k + length pre - length pre) with k by lia.
  rewrite drop_app_le by lia.
  destruct post as [|l junk]; [by rewrite app_nil_r|].
  unfold parse_block. rewrite collect_table_cut; [done| |done].
  right. apply find_header_Some in Hk as (hdr & Hhdr & His & _).
  rewrite Nat.sub_0_r in Hhdr. rewrite (drop_S _ _ _ Hhdr).
  apply Exists_cons_hd. by apply andb_true_iff in His as [? _].
Qed.

Lemma parse_markdown_table_ignores_prose_witness :
  parse_markdown_table
    (ln "Here is the table you asked for." +:+ ln SCENARIO_B +:+
     ln "" +:+ "| this | is | not | part | of | it | any | more |")
  = parse_markdown_table SCENARIO_B.
Proof.
  apply (parse_markdown_table_ignores_prose _ SCENARIO_B
           ["Here is the table you asked for."]
           [""; "| this | is | not | part | of | it | any | more |"]).
  - reflexivity.
  - repeat constructor.
  - do 2 apply Exists_cons_tl. apply Exists_cons_hd. reflexivity.
  - reflexivity.
Defined.

Lemma dict_zip_last (keys vals : list string) (j : nat) (k : string) :
  length vals = length keys -> keys !! j = Some k ->
  (forall j', j < j' -> keys !! j' <> Some k) ->
  dict (zip keys vals) !! k = vals !! j.
Proof.
  revert vals j. induction keys as [|k0 ks IH] using rev_ind;
    intros vals j Hlen Hj Hlast; [done|].
  assert (vals <> []) as Hne
    by (intros ->; rewrite length_app in Hlen; simpl in Hlen; lia).
  destruct (exists_last Hne) as (vs & v0 & ->).
  rewrite !length_app in Hlen. simpl in Hlen.
  assert (length vs = length ks) as Hlen' by lia.
  rewrite (zip_with_app pair ks [k0] vs [v0]) by lia. simpl zip_with.
  rewrite dict_snoc.
  destruct (decide (j = length ks)) as [->|Hjne].
  - rewrite list_lookup_middle in Hj by done. injection Hj as ->.
    rewrite lookup_insert_eq. by rewrite list_lookup_middle.
  - assert (j < length ks) as Hlt.
    { apply lookup_lt_Some in Hj. rewrite length_app in Hj. simpl in Hj. lia. }
    rewrite lookup_app_l in Hj by done.
    rewrite lookup_app_l by lia.
    assert (k0 <> k) as Hk0.
    { intros ->. apply (Hlast (length ks)); [lia|].
      by rewrite list_lookup_middle. }
    rewrite lookup_insert_ne by done. apply IH; [done..|].
    intros j' Hj' Hk. apply (Hlast j' Hj').
    rewrite lookup_app_l; [done|]. by apply lookup_lt_Some in Hk.
Qed.

(** When the header names a field more than once, the record holds the
    cell of the last column of that name. *)
Theorem record_last_column_wins
    (headers : list string) (row : string) (j : nat) (name : string) :
  kept_row headers row -> headers !! j = Some name ->
  (forall j', j < j' -> headers !! j' <> Some name) ->
  record headers row !! name = row_cells row !! j.
Proof. intros Hrow Hj Hlast. by apply dict_zip_last. Qed.

Lemma record_last_column_wins_witness :
  record ["Test Case ID"; "Remarks"; "Remarks"] "| TC001 | first | second |"
  !! "Remarks"
  = Some "second".
Proof.
  apply (record_last_column_wins ["Test Case ID"; "Remarks"; "Remarks"]
           "| TC001 | first | second |" 2 "Remarks").
  - reflexivity.
  - reflexivity.
  - intros [|[|[|j']]] Hj'; simpl; try lia; discriminate.
Defined.

(** ** The component name, in general *)

(** Whatever the response, the name has no line feed in it and no
    whitespace at either end. *)
Theorem extract_component_single_trimmed (md_full_text : string) :
  str_in NL (extract_component md_full_text) = false
  /\ strip (extract_component md_full_text) = extract_component md_full_text.
Proof.
  split; [apply extract_component_no_line_feed|].
  unfold extract_component. destruct (Re.search _ _); [|done].
  apply strip_idemp.
Qed.

Lemma extract_component_leading_line_witness :
  extract_component
    ("  COMPONENT :  Login module  " +:+ NL +:+ "Component: Other")
  = "Login module".
Proof.
  apply (extract_component_leading_line "  " "COMPONENT" " " "  "
           "Login module" "  " (NL +:+ "Component: Other")); try reflexivity.
  discriminate.
Defined.

Section ReWord.

Lemma star_greedy_suffix (cls : ascii -> bool) (k : Re.cont)
    (prev : option ascii) (cap s r : string) :
  Re.star_greedy cls k prev cap s = Some r ->
  exists prev' a s', s = a +:+ s' /\ k prev' cap s' = Some r.
Proof.
  revert prev. induction s as [|c s IH]; intros prev; simpl.
  - intros H. by exists prev, "", "".
  - assert (k prev cap (String c s) = Some r ->
            exists prev' a s', String c s = a +:+ s' /\ k prev' cap s' = Some r)
      as Hk by (intros H; by exists prev, "", (String c s)).
    destruct (cls c); [|done].
    destruct (Re.star_greedy cls k (Some c) cap s) as [r'|] eqn:E; [|done].
    intros [= <-]. apply IH in E as (prev' & a & s' & -> & H).
    by exists prev', (String c a), s'.
Qed.

Lemma match_lit_word (w : string) (pat : list Re.node)
    (prev : option ascii) (cap s r : string) :
  Re.match_here (Re.lit w ++ pat) prev cap s = Some r ->
  exists word s', s = word +:+ s' /\ lower word = lower w.
Proof.
  revert prev s. induction w as [|c w IH]; intros prev s.
  - intros _. by exists "", s.
  - simpl. destruct s as [|d s]; [done|].
    destruct (Ascii.eqb_spec (lower_char d) (lower_char c)) as [Hd|]; [|done].
    intros (word & s' & -> & Hw)%IH. exists (String d word), s'.
    simpl. by rewrite Hd, Hw.
Qed.

Lemma component_re_word (prev : option ascii) (cap s r : string) :
  Re.match_here COMPONENT_RE prev cap s = Some r ->
  exists a word b, s = a +:+ word +:+ b /\ lower word = "component".
Proof.
  unfold COMPONENT_RE. cbn [app Re.match_here].
  destruct (Re.at_bol prev); [|done].
  intros (p1 & a & s1 & -> & H)%star_greedy_suffix.
  apply match_lit_word in H as (word & b & -> & Hw). by exists a, word, b.
Qed.

Lemma search_from_word (prev : option ascii) (s r : string) :
  Re.search_from COMPONENT_RE prev s = Some r ->
  exists a word b, s = a +:+ word +:+ b /\ lower word = "component".
Proof.
  revert prev. induction s as [|c s IH]; intros prev;
    rewrite search_from_unfold;
    destruct (Re.match_here COMPONENT_RE prev "" _) eqn:E;
    try (intros _; by apply component_re_word in E); [done|].
  intros (a & word & b & -> & Hw)%IH. by exists (String c a), word, b.
Qed.

End ReWord.

(** A response in which the word "component" does not occur, in any
    case of its letters, gives the sentinel. *)
Theorem extract_component_unknown (md_full_text : string) :
  str_in "component" (lower md_full_text) = false ->
  extract_component md_full_text = "Unknown".
Proof.
  intros H. unfold extract_component, Re.search.
  destruct (Re.search_from _ _ _) as [r|] eqn:E; [|done].
  apply search_from_word in E as (a & word & b & -> & Hw).
  rewrite !lower_app, Hw in H.
  assert (str_in "component" (lower a +:+ "component" +:+ lower b) = true)
    as H' by (apply str_in_true; eauto).
  congruence.
Qed.

Lemma extract_component_unknown_witness :
  extract_component
    (ln "Module under test: Login" +:+ "| Test Case ID | Remarks |")
  = "Unknown".
Proof.
  apply (extract_component_unknown
           (ln "Module under test: Login" +:+ "| Test Case ID | Remarks |")).
  reflexivity.
Defined.

(** ** The header cell, in general *)

Section HeaderFacts.

Lemma split_once_head_cons (sep c : ascii) (s : string) :
  hd "" (split_once sep (String c s))
  = if Ascii.eqb c sep then "" else String c (hd "" (split_once sep s)).
Proof.
  simpl. destruct (Ascii.eqb c sep); [done|].
  assert (split_once sep s <> []) as H.
  { destruct s as [|d s]; [done|]. simpl.
    destruct (Ascii.eqb d sep); [done|]. by destruct (split_once sep s). }
  by destruct (split_once sep s).
Qed.

Lemma split_once_head_colon_free (s : string) :
  str_in ":" (hd "" (split_once ":" s)) = false.
Proof.
  induction s as [|c s IH]; [done|]. rewrite split_once_head_cons.
  destruct (Ascii.eqb c ":") eqn:Hc; [done|].
  by rewrite (has_sep_cons ":"), Hc, IH.
Qed.

(** Relabelling twice is relabelling with the second value. *)
Lemma relabel_relabel (s value1 value2 : string) :
  relabel (relabel s value1) value2 = relabel s value2.
Proof.
  unfold relabel at 2 3. unfold relabel.
  change (": " +:+ value1) with (String ":" (" " +:+ value1)).
  rewrite split_once_app_sep; [done|]. apply split_once_head_colon_free.
Qed.

Lemma lower_length (s : string) : String.length (lower s) = String.length s.
Proof. induction s as [|c s IH]; [done|]. simpl. by rewrite IH. Qed.

Lemma lower_char_illegal (c : ascii) :
  is_illegal_char (lower_char c) = is_illegal_char c.
Proof. destruct c as [[] [] [] [] [] [] [] []]; by vm_compute. Qed.

Lemma lower_illegal (s : string) :
  has_illegal_char (lower s) = has_illegal_char s.
Proof.
  induction s as [|c s IH]; [done|]. simpl.
  by rewrite lower_char_illegal, IH.
Qed.

Lemma has_illegal_char_app (a b : string) :
  has_illegal_char (a +:+ b) = has_illegal_char a || has_illegal_char b.
Proof.
  induction a as [|c a IH]; [done|]. rewrite sapp_cons. simpl.
  by rewrite IH, orb_assoc.
Qed.

Lemma has_illegal_char_take (n : N) (s : string) :
  has_illegal_char s = false -> has_illegal_char (str_take n s) = false.
Proof.
  revert n. induction s as [|c s IH]; intros n; [done|]. simpl.
  intros [Hc Hs]%orb_false_iff. destruct (n =? 0)%N; [done|]. simpl.
  by rewrite Hc, IH.
Qed.

(** The label of a component cell: what is in front of its first colon. *)
Lemma component_cell_head (s : string) :
  startswith (lower s) "component:" = true ->
  lower (hd "" (split_once ":" s)) = "component".
Proof.
  intros (a & rest & -> & Ha)%startswith_lower.
  apply (lower_eq_app a "component" ":") in Ha as (label & c & -> & Hl & Hc).
  destruct c as [|c [|]]; try done. injection Hc as ->%lower_char_colon.
  rewrite sapp_assoc. change (":" +:+ rest) with (String ":" rest).
  rewrite split_once_app_sep; [done|].
  apply lower_keeps_colon_free. by rewrite Hl.
Qed.

(** A component label, a colon and more: cut to the length of a cell, it
    is a component cell still, with the same label. *)
Lemma cut_labelled (label rest : string) :
  lower label = "component" ->
  exists rest', cut (label +:+ String ":" rest) = label +:+ String ":" rest'.
Proof.
  intros Hl. pose proof (lower_length label) as Hlen.
  rewrite Hl in Hlen. simpl in Hlen. unfold cut.
  rewrite str_take_app by (rewrite <- Hlen; by vm_compute).
  rewrite <- Hlen. eexists. cbn. reflexivity.
Qed.

Lemma cut_labelled_is_component (label rest : string) :
  lower label = "component" ->
  startswith (lower (cut (label +:+ String ":" rest))) "component:" = true.
Proof.
  intros Hl. destruct (cut_labelled label rest Hl) as [rest' ->].
  rewrite lower_app, Hl. apply startswith_true.
  exists (lower rest'). reflexivity.
Qed.

Lemma cut_labelled_relabel (label rest value : string) :
  lower label = "component" ->
  relabel (cut (label +:+ String ":" rest)) value
  = label +:+ ": " +:+ value.
Proof.
  intros Hl. destruct (cut_labelled label rest Hl) as [rest' ->].
  unfold relabel. rewrite split_once_app_sep; [done|].
  apply lower_keeps_colon_free. by rewrite Hl.
Qed.

Lemma labelled_legal (label value : string) :
  lower label = "component" -> has_illegal_char value = false ->
  storable (label +:+ ": " +:+ value).
Proof.
  intros Hl Hv. unfold storable, cut. apply has_illegal_char_take.
  rewrite !has_illegal_char_app, Hv, <- (lower_illegal label), Hl.
  reflexivity.
Qed.

Lemma cell_assign_twice (ws : worksheet) (r c : nat) (old : value)
    (v : option string) :
  is_Some v ->
  cell_assign (<[(r, c) := old]> ws) r c v = cell_assign ws r c v.
Proof.
  intros [s ->]. cbn [cell_assign].
  destruct (check_string s); [|done]. rewrite !bind_Ok.
  by rewrite insert_insert_eq.
Qed.

(** The header step raises nothing when the name has no refused
    character. *)
Lemma inject_component_legal (component_name : string) (ws : worksheet) :
  has_illegal_char component_name = false ->
  exists ws', inject_component component_name ws = Ok ws'.
Proof.
  intros Hname. unfold inject_component, set_header.
  rewrite label_low_Component.
  destruct (set_header_rows_cases "component" component_name ws
              (seq 1 9) (seq 1 11))
    as [[Hnone _]
       |(rs1 & r & rs2 & cs1 & c & cs2 & s & _ & _ & _ & _ & _ & Hl & Hrun)].
  - rewrite Hnone, !bind_Ok, cell_assign_storable; [by eexists|].
    intros ? [= <-]. by apply (labelled_legal "Component").
  - rewrite Hrun, cell_assign_storable; [by eexists|].
    intros ? [= <-]. apply labelled_legal; [|done].
    by apply component_cell_head.
Qed.

Lemma inject_component_label_cell (component_name : string)
    (ws ws' : worksheet) :
  inject_component component_name ws = Ok ws' ->
  exists (p : nat * nat) (label : string),
    in_region p /\ lower label = "component"
    /\ ws' !! p = Some (VStr (cut (label +:+ ": " +:+ component_name))).
Proof.
  intros [(r & c & s & Hp & Hs & Hl & _ & _ & ->)|(_ & _ & ->)]
         %inject_component_Ok.
  - exists (r, c), (hd "" (split_once ":" s)). split; [done|].
    split; [by apply component_cell_head|]. apply lookup_insert_eq.
  - exists (2, 5), "Component". split; [split; simpl; lia|].
    split; [done|]. apply lookup_insert_eq.
Qed.

Lemma labelled_short (label value : string) :
  lower label = "component" ->
  (N.of_nat (String.length value) <= 32756)%N ->
  cut (label +:+ ": " +:+ value) = label +:+ ": " +:+ value.
Proof.
  intros Hl Hv. apply cut_short. pose proof (lower_length label) as Hlen.
  rewrite Hl in Hlen. simpl in Hlen.
  rewrite !sapp_length, <- Hlen. simpl. lia.
Qed.

End HeaderFacts.

(** When the component name has no control character that openpyxl
    refuses, the header step returns.  Whenever it returns, some cell of
    the scanned region holds a component label, a colon, a space and the
    name, cut to the 32767 characters of a cell: all of it when the name
    has at most 32756 characters.  So the step never leaves the sheet
    without the name. *)
Theorem inject_component_labelled (component_name : string)
    (ws : worksheet) :
  (has_illegal_char component_name = false ->
   exists ws', inject_component component_name ws = Ok ws')
  /\ (forall ws',
        inject_component component_name ws = Ok ws' ->
        exists (p : nat * nat) (label : string),
          in_region p /\ lower label = "component"
          /\ ws' !! p
             = Some (VStr (cut (label +:+ ": " +:+ component_name)))
          /\ ((N.of_nat (String.length component_name) <= 32756)%N ->
              ws' !! p = Some (VStr (label +:+ ": " +:+ component_name)))).
Proof.
  split; [apply inject_component_legal|].
  intros ws' (p & label & Hp & Hl & Hcell)%inject_component_label_cell.
  exists p, label. split_and!; try done.
  intros Hlen. by rewrite Hcell, labelled_short.
Qed.

Lemma inject_component_labelled_witness :
  exists (ws' : worksheet) (p : nat * nat) (label : string),
    inject_component "Login" USED_SHEET = Ok ws'
    /\ in_region p /\ lower label = "component"
    /\ ws' !! p = Some (VStr (label +:+ ": Login")).
Proof.
  destruct (inject_component_labelled "Login" USED_SHEET) as [Hret Hcell].
  destruct (Hret eq_refl) as [ws' Hrun].
  destruct (Hcell ws' Hrun) as (p & label & Hp & Hl & _ & Hname).
  exists ws', p, label. split_and!; try done.
  apply Hname. by vm_compute.
Defined.

(** Setting the header of a sheet whose header was set is setting it with
    the second name: the cell that the first call wrote is the cell that
    the second call finds, and its label is kept.  So a workbook that was
    filled before can serve as the template of the next run. *)
Theorem inject_component_again (name1 name2 : string)
    (ws ws1 : worksheet) :
  inject_component name1 ws = Ok ws1 ->
  inject_component name2 ws1 = inject_component name2 ws.
Proof.
  intros [(r & c & s & Hp & Hs & Hl & Hfirst & _ & ->)|(Hnone & _ & ->)]
         %inject_component_Ok.
  - pose proof (component_cell_head s Hl) as Hhead.
    rewrite (inject_component_found name2 ws r c s) by done.
    unfold relabel at 1.
    change (": " +:+ name1) with (String ":" (" " +:+ name1)).
    rewrite (inject_component_found name2 _ r c
               (cut (hd "" (split_once ":" s)
                     +:+ String ":" (" " +:+ name1)))).
    + rewrite cut_labelled_relabel by done. fold (relabel s name2).
      by apply cell_assign_twice.
    + done.
    + apply lookup_insert_eq.
    + by apply cut_labelled_is_component.
    + intros q Hq Hbefore. unfold is_component_cell.
      rewrite lookup_insert_ne; [by apply Hfirst|].
      intros <-. unfold scanned_before in Hbefore. lia.
  - rewrite (inject_component_fallback name2 ws) by done.
    change ("Component: " +:+ name1)
      with ("Component" +:+ String ":" (" " +:+ name1)).
    rewrite (inject_component_found name2 _ 2 5
               (cut ("Component" +:+ String ":" (" " +:+ name1)))).
    + rewrite cut_labelled_relabel by done. by apply cell_assign_twice.
    + split; simpl; lia.
    + apply lookup_insert_eq.
    + by apply cut_labelled_is_component.
    + intros q Hq Hbefore. unfold is_component_cell.
      rewrite lookup_insert_ne; [by apply Hnone|].
      intros <-. unfold scanned_before in Hbefore. simpl in Hbefore. lia.
Qed.

Lemma inject_component_again_witness :
  inject_component "Payments"
    (<[(2, 5) := VStr "Component: Login"]> USED_SHEET)
  = inject_component "Payments" USED_SHEET.
Proof. by apply (inject_component_again "Login" "Payments" USED_SHEET). Defined.

(** ** The text of the requirements document *)

Lemma join_not_empty (sep : ascii) (x : string) (rest : list string) :
  x <> "" -> join sep (x :: rest) <> "".
Proof.
  intros Hx. destruct rest as [|y rest]; [done|].
  rewrite join_cons by done. by destruct x.
Qed.

Lemma filter_nil_Forall {A} (P : A -> Prop) `{!forall x, Decision (P x)}
    (l : list A) :
  filter P l = [] <-> Forall (fun x => ~ P x) l.
Proof.
  induction l as [|x l IH]; [by rewrite filter_nil|].
  rewrite filter_cons, Forall_cons. destruct (decide (P x)); [|tauto].
  split; [done|]. tauto.
Qed.

(** The text of a document whose paragraphs hold no line feed: its lines
    are the paragraphs that are not blank, in their order, and it is empty
    exactly when every paragraph is blank. *)
Theorem extract_srs_text_paragraphs
    (docs : documents) (doc_path : string) (paragraphs : list string) :
  docs !! doc_path = Some paragraphs ->
  Forall (fun text => str_in NL text = false) paragraphs ->
  exists srs_text : string,
    extract_srs_text docs doc_path = Done srs_text
    /\ (srs_text = "" <-> Forall (fun text => strip text = "") paragraphs)
    /\ (srs_text <> "" ->
        split LF srs_text = filter (fun text => strip text <> "") paragraphs).
Proof.
  intros Hdoc Hlf. unfold extract_srs_text. rewrite Hdoc.
  eexists. split; [reflexivity|].
  set (kept := filter (fun text => strip text <> "") paragraphs).
  assert (kept <> [] -> join LF kept <> "") as Hne.
  { destruct kept as [|x rest] eqn:E; [done|]. intros _.
    apply join_not_empty.
    assert (x ∈ kept) as [Hx _]%list_elem_of_filter
      by (rewrite E; apply list_elem_of_here).
    intros ->. by apply Hx. }
  split.
  - split.
    + intros H. destruct (decide (kept = [])) as [Hk|Hk]; [|by apply Hne in Hk].
      apply filter_nil_Forall in Hk. eapply Forall_impl; [exact Hk|].
      intros text Ht. simpl in Ht. by destruct (decide (strip text = "")).
    + intros H. assert (kept = []) as ->; [|done].
      apply filter_nil_Forall. eapply Forall_impl; [exact H|].
      intros text Ht. simpl. congruence.
  - intros H. apply split_join.
    + by intros ->.
    + apply Forall_forall. intros text [_ Ht]%list_elem_of_filter.
      by apply (proj1 (Forall_forall _ _) Hlf).
Qed.

Lemma extract_srs_text_paragraphs_witness :
  exists srs_text : string,
    extract_srs_text SCENARIO_A_DOCS "jobs/1/SRS.docx" = Done srs_text
    /\ split LF srs_text = ["Login module"; "Must support IPv4 and IPv6"].
Proof.
  destruct (extract_srs_text_paragraphs SCENARIO_A_DOCS "jobs/1/SRS.docx"
              ["Login module"; "  "; "Must support IPv4 and IPv6"; ""])
    as (srs_text & Hcall & _ & Hlines).
  - reflexivity.
  - repeat constructor.
  - exists srs_text. split; [exact Hcall|].
    injection Hcall as <-. by apply Hlines.
Defined.

(** ** The generation service *)

Section ServiceFacts.

Lemma text_blocks_Ok (blocks : list (gmap string string)) :
  Forall (fun block => block !! "type" = Some "text" ->
                       is_Some (block !! "text")) blocks ->
  text_blocks blocks = Ok (block_texts blocks).
Proof.
  induction 1 as [|block blocks Hb _ IH]; [done|].
  unfold block_texts. simpl.
  destruct (decide (block !! "type" = Some "text")) as [Ht|]; [|exact IH].
  destruct (Hb Ht) as [text ->]. simpl. by rewrite IH.
Qed.

Lemma text_blocks_KeyError (blocks : list (gmap string string)) :
  Exists (fun block => block !! "type" = Some "text"
                       /\ block !! "text" = None) blocks ->
  text_blocks blocks = Raise (KeyError "text").
Proof.
  induction 1 as [block blocks [Ht Hn]|block blocks _ IH]; simpl.
  - by rewrite decide_True, Hn by done.
  - rewrite IH. destruct (decide _); [|done]. by destruct (block !! "text").
Qed.

Lemma get_testcases_made (environ : gmap string string)
    (service : request -> reply) (made : list request) (srs_text : string) :
  let out := get_testcases_from_claude environ service made srs_text in
  out.2 = made \/ exists req, out.2 = made ++ [req].
Proof.
  unfold get_testcases_from_claude.
  destruct (environ !! "ANTHROPIC_API_KEY") as [[|c key]|]; [by left| |by left].
  right. eexists.
  destruct (service _) as [reason|status_code content]; [done|].
  destruct (_ && _); [done|]. by destruct (text_blocks _).
Qed.

End ServiceFacts.

(** Without a key in the environment, or with an empty one, the call fails
    before any request is made; with a key, it makes one request, with the
    key and with the prompt of the text as the only message, and no second
    one, whatever the service answers. *)
Theorem get_testcases_from_claude_requests
    (environ : gmap string string) (service : request -> reply)
    (made : list request) (srs_text : string) :
  let out := get_testcases_from_claude environ service made srs_text in
  (environ !! "ANTHROPIC_API_KEY" = None
   \/ environ !! "ANTHROPIC_API_KEY" = Some "" ->
   out = (Failed (Exn (ValueError
            "Missing Anthropic API key. Set ANTHROPIC_API_KEY environment variable.")),
          made))
  /\ (forall api_key,
        environ !! "ANTHROPIC_API_KEY" = Some api_key -> api_key <> "" ->
        out.2 = made ++ [claude_request api_key (build_prompt srs_text)]).
Proof.
  unfold get_testcases_from_claude. split.
  - by intros [-> | ->].
  - intros api_key -> Hkey. destruct api_key as [|c key]; [done|].
    destruct (service _) as [reason|status_code content]; [done|].
    destruct (_ && _); [done|]. by destruct (text_blocks _).
Qed.

Lemma get_testcases_from_claude_requests_witness :
  get_testcases_from_claude ∅ (fun _ => Response 200 None) [] "Login module"
  = (Failed (Exn (ValueError
       "Missing Anthropic API key. Set ANTHROPIC_API_KEY environment variable.")),
     [])
  /\ (get_testcases_from_claude WITH_KEY
        (fun _ => Response 503 None) [] "Login module").2
     = [] ++ [claude_request "sk-1" (build_prompt "Login module")].
Proof.
  split.
  - apply (proj1 (get_testcases_from_claude_requests ∅
                    (fun _ => Response 200 None) [] "Login module")).
    left. reflexivity.
  - apply (proj2 (get_testcases_from_claude_requests WITH_KEY
                    (fun _ => Response 503 None) [] "Login module")).
    + reflexivity.
    + discriminate.
Defined.

(** What the call returns for a reply with a status code: the error of the
    code for 400 to 599; else the texts of the blocks of type "text",
    joined by line feeds in their order, the other blocks and a missing
    "content" counting for nothing; and a KeyError when a block of type
    "text" has no text. *)
Theorem get_testcases_from_claude_response
    (environ : gmap string string) (service : request -> reply)
    (made : list request) (srs_text api_key : string)
    (status_code : nat) (content : option (list (gmap string string))) :
  environ !! "ANTHROPIC_API_KEY" = Some api_key -> api_key <> "" ->
  service (claude_request api_key (build_prompt srs_text))
  = Response status_code content ->
  let out := get_testcases_from_claude environ service made srs_text in
  (is_error_status status_code -> out.1 = Failed (HTTPError status_code))
  /\ (~ is_error_status status_code ->
      Forall (fun block => block !! "type" = Some "text" ->
                           is_Some (block !! "text")) (default [] content) ->
      out.1 = Done (join LF (block_texts (default [] content))))
  /\ (~ is_error_status status_code ->
      Exists (fun block => block !! "type" = Some "text"
                           /\ block !! "text" = None) (default [] content) ->
      out.1 = Failed (Exn (KeyError "text"))).
Proof.
  intros Hkey Hne Hreply. unfold get_testcases_from_claude, is_error_status.
  rewrite Hkey. destruct api_key as [|c key]; [done|]. rewrite Hreply.
  destruct (Nat.leb_spec 400 status_code) as [Hlo|Hlo],
    (Nat.ltb_spec status_code 600) as [Hhi|Hhi];
    simpl; split_and!; try (intros; lia); try done.
  all: try (intros _ Hb; by rewrite (text_blocks_Ok _ Hb)).
  all: intros _ Hb; by rewrite (text_blocks_KeyError _ Hb).
Qed.

Lemma get_testcases_from_claude_response_witness :
  (get_testcases_from_claude WITH_KEY
     (fun _ => Response 200 (Some THREE_BLOCKS)) [] "Login module").1
  = Done ("Component: Login" +:+ NL +:+ "| Test Case ID |").
Proof.
  apply (get_testcases_from_claude_response WITH_KEY
           (fun _ => Response 200 (Some THREE_BLOCKS)) [] "Login module"
           "sk-1" 200 (Some THREE_BLOCKS)).
  - reflexivity.
  - discriminate.
  - reflexivity.
  - unfold is_error_status. lia.
  - apply Forall_cons_2; [intros _; by exists "Component: Login"|].
    apply Forall_cons_2; [intros H; by vm_compute in H|].
    apply Forall_cons_2; [intros _; by exists "| Test Case ID |"|].
    apply Forall_nil_2.
Defined.

(** ** The whole run *)

Section RunFacts.

Lemma get_testcases_Done (environ : gmap string string)
    (service : request -> reply) (made : list request)
    (srs_text api_key : string) (status_code : nat)
    (content : option (list (gmap string string))) (texts : list string) :
  environ !! "ANTHROPIC_API_KEY" = Some api_key -> api_key <> "" ->
  service (claude_request api_key (build_prompt srs_text))
  = Response status_code content ->
  ~ is_error_status status_code ->
  text_blocks (default [] content) = Ok texts ->
  get_testcases_from_claude environ service made srs_text
  = (Done (join LF texts),
     made ++ [claude_request api_key (build_prompt srs_text)]).
Proof.
  intros Hkey Hne Hreply Hstatus Htexts.
  unfold get_testcases_from_claude, is_error_status in *.
  rewrite Hkey. destruct api_key as [|c key]; [done|].
  rewrite Hreply, Htexts.
  destruct (Nat.leb_spec 400 status_code), (Nat.ltb_spec status_code 600);
    simpl; try done. lia.
Qed.

Lemma get_testcases_Done_made (environ : gmap string string)
    (service : request -> reply) (made made' : list request)
    (srs_text md_full : string) :
  get_testcases_from_claude environ service made srs_text
  = (Done md_full, made') ->
  exists req, made' = made ++ [req].
Proof.
  unfold get_testcases_from_claude.
  destruct (environ !! "ANTHROPIC_API_KEY") as [[|c key]|]; [done| |done].
  destruct (service _) as [reason|status_code content]; [done|].
  destruct (_ && _); [done|].
  destruct (text_blocks _); [|done]. intros [= _ <-]. eauto.
Qed.

Lemma fill_excel_template_Ok (write_error : string -> option exn)
    (test_cases : list (gmap string string))
    (template_path output_path component_name : string) (fs fs' : files) :
  fill_excel_template write_error test_cases template_path output_path
    component_name fs
  = Ok fs' ->
  exists wb, fs' = <[output_path := wb]> fs.
Proof.
  unfold fill_excel_template. destruct (fs !! template_path) as [wb|]; [|done].
  destruct (wb !! "Testcases") as [ws|]; [|done].
  destruct (inject_component component_name ws) as [ws0|]; [|done].
  rewrite bind_Ok.
  destruct (fill_rows ws0 0 test_cases) as [ws'|]; [|done]. rewrite bind_Ok.
  destruct (write_error output_path); [done|]. intros [= <-]. eauto.
Qed.

Lemma all_storable_spec (test_cases : list (gmap string string)) :
  all_storable test_cases = true -> field_values_storable test_cases.
Proof.
  unfold all_storable. rewrite forallb_forall.
  intros H tc field v Htc Hfield Hv.
  apply list_elem_of_In, H in Htc. rewrite forallb_forall in Htc.
  apply list_elem_of_In, Htc in Hfield. rewrite Hv in Hfield.
  by apply negb_true_iff in Hfield.
Qed.

Lemma USED_SHEET_label_above (q : nat * nat) :
  is_component_cell USED_SHEET q = true -> q.1 < 6.
Proof.
  unfold is_component_cell, USED_SHEET. intros H.
  destruct (decide (q = (2, 5))) as [->|Hq]; [simpl; lia|].
  rewrite lookup_insert_ne in H by done.
  destruct (decide (q = (6, 3))) as [->|Hq']; [done|].
  by rewrite lookup_singleton_ne in H.
Qed.

End RunFacts.

(** What a run can change.  It never touches the environment and makes
    one request at most; when it fails, for whatever reason, no document
    and no workbook is written or changed; when it succeeds, it has made
    one request, the one workbook that differs is the one at the output
    path, and the documents are as they were but for a document at the
    output path, which the saved workbook replaces. *)
Theorem generate_testcases_effects
    (service : request -> reply) (write_error : string -> option exn)
    (srs_path template_path output_path : string) (w : world) :
  let out := generate_testcases service write_error srs_path template_path
               output_path w in
  w_environ out.2 = w_environ w
  /\ (w_made out.2 = w_made w \/ exists req, w_made out.2 = w_made w ++ [req])
  /\ (forall e, out.1 = Failed e ->
                w_docs out.2 = w_docs w /\ w_files out.2 = w_files w)
  /\ (out.1 = Done tt ->
      (exists req, w_made out.2 = w_made w ++ [req])
      /\ (exists wb, w_files out.2 = <[output_path := wb]> (w_files w))
      /\ w_docs out.2 = delete output_path (w_docs w)).
Proof.
  unfold generate_testcases.
  destruct (extract_srs_text (w_docs w) srs_path) as [srs_text|e0].
  2: { simpl. split_and!; try done. by left. }
  pose proof (get_testcases_made (w_environ w) service (w_made w) srs_text)
    as Hmade.
  destruct (get_testcases_from_claude _ _ _ _) as [r made] eqn:E.
  simpl in Hmade.
  destruct r as [md_full|e1]; [|by simpl; split_and!].
  apply get_testcases_Done_made in E as Hreq.
  destruct (parse_markdown_table md_full) as [test_cases|e2];
    [|by simpl; split_and!].
  simpl w_files.
  destruct (fill_excel_template _ _ _ _ _ _) as [fs|e3] eqn:Efill;
    [|by simpl; split_and!].
  apply fill_excel_template_Ok in Efill. simpl. by split_and!.
Qed.

(** A run that has all it needs: the document, a key, a reply with a
    good status whose text parses, the template with its sheet, a
    component name and field values that openpyxl stores, and an output
    path that can be written.  It succeeds; the sheet at the output path
    has the value of field [j] of record [i], cut to 32767 characters, in
    row [6 + i], column [2 + j]; and when every component label of the
    template is above row 6, a cell of the header region above row 6 holds
    a component label, a colon, a space and the component name of the same
    reply. *)
Theorem generate_testcases_writes
    (service : request -> reply) (write_error : string -> option exn)
    (srs_path template_path output_path : string) (w : world)
    (paragraphs : list string) (api_key : string) (status_code : nat)
    (content : option (list (gmap string string))) (texts : list string)
    (test_cases : list (gmap string string))
    (wb : workbook) (ws ws0 : worksheet) :
  w_docs w !! srs_path = Some paragraphs ->
  w_environ w !! "ANTHROPIC_API_KEY" = Some api_key -> api_key <> "" ->
  let srs_text := join LF (filter (fun text => strip text <> "") paragraphs) in
  let req := claude_request api_key (build_prompt srs_text) in
  service req = Response status_code content ->
  ~ is_error_status status_code ->
  text_blocks (default [] content) = Ok texts ->
  let md_full := join LF texts in
  parse_markdown_table md_full = Ok test_cases ->
  w_files w !! template_path = Some wb -> wb !! "Testcases" = Some ws ->
  inject_component (extract_component md_full) ws = Ok ws0 ->
  field_values_storable test_cases ->
  write_error output_path = None ->
  exists ws' : worksheet,
    generate_testcases service write_error srs_path template_path
      output_path w
    = (Done tt,
       {| w_docs := delete output_path (w_docs w);
          w_environ := w_environ w;
          w_made := w_made w ++ [req];
          w_files := <[output_path := <["Testcases" := ws']> wb]> (w_files w) |})
    /\ (forall i tc j field v,
          test_cases !! i = Some tc -> FIELDS !! j = Some field ->
          tc !! field = Some v ->
          ws' !! (6 + i, 2 + j) = Some (VStr (cut v)))
    /\ ((forall q, in_region q -> is_component_cell ws q = true -> q.1 < 6) ->
        exists (p : nat * nat) (label : string),
          in_region p /\ p.1 < 6 /\ lower label = "component"
          /\ ws' !! p
             = Some (VStr (cut (label +:+ ": "
                                +:+ extract_component md_full)))).
Proof.
  intros Hdoc Hkey Hne srs_text req Hreply Hstatus Htexts md_full Hparse
    Hwb Hws Hhdr Hvals Hsave.
  exists (put_rows ws0 0 test_cases). split_and!.
  - unfold generate_testcases, extract_srs_text. rewrite Hdoc.
    fold srs_text.
    rewrite (get_testcases_Done _ _ _ _ _ _ _ _ Hkey Hne Hreply Hstatus
               Htexts).
    fold md_full. rewrite Hparse. simpl w_files.
    rewrite (fill_excel_template_unfold _ _ _ _ _ _ _ _ Hwb Hws).
    by rewrite Hhdr, bind_Ok, fill_rows_storable, bind_Ok, Hsave.
  - intros i tc j field v Hi Hj Hv.
    pose proof (put_rows_field ws0 0 i test_cases tc j field Hi Hj) as H.
    unfold start_row in H. rewrite Nat.add_0_r, Hv in H. exact H.
  - intros Habove.
    destruct (inject_component_Ok _ _ _ Hhdr)
      as [(r & c & s & Hp & Hs & Hl & _ & _ & ->)|(_ & _ & ->)].
    + assert (r < 6) as Hr.
      { apply (Habove (r, c) Hp). unfold is_component_cell. by rewrite Hs. }
      exists (r, c), (hd "" (split_once ":" s)). split_and!; try done.
      * by apply component_cell_head.
      * rewrite put_rows_other by (unfold start_row; lia).
        apply lookup_insert_eq.
    + exists (2, 5), "Component". split_and!; try done.
      * split; simpl; lia.
      * simpl. lia.
      * rewrite put_rows_other by (unfold start_row; lia).
        apply lookup_insert_eq.
Qed.

(** A run whose reply has no table that parses: it fails with the error
    of the parser after its one request, and writes nothing; that a
    component name can be read from the reply changes nothing. *)
Theorem generate_testcases_parse_failure
    (service : request -> reply) (write_error : string -> option exn)
    (srs_path template_path output_path : string) (w : world)
    (paragraphs : list string) (api_key : string) (status_code : nat)
    (content : option (list (gmap string string))) (texts : list string)
    (e : exn) :
  w_docs w !! srs_path = Some paragraphs ->
  w_environ w !! "ANTHROPIC_API_KEY" = Some api_key -> api_key <> "" ->
  let srs_text := join LF (filter (fun text => strip text <> "") paragraphs) in
  let req := claude_request api_key (build_prompt srs_text) in
  service req = Response status_code content ->
  ~ is_error_status status_code ->
  text_blocks (default [] content) = Ok texts ->
  parse_markdown_table (join LF texts) = Raise e ->
  generate_testcases service write_error srs_path template_path output_path w
  = (Failed (Exn e),
     {| w_docs := w_docs w; w_environ := w_environ w;
        w_made := w_made w ++ [req]; w_files := w_files w |}).
Proof.
  intros Hdoc Hkey Hne srs_text req Hreply Hstatus Htexts Hparse.
  unfold generate_testcases, extract_srs_text. rewrite Hdoc.
  fold srs_text.
  rewrite (get_testcases_Done _ _ _ _ _ _ _ _ Hkey Hne Hreply Hstatus Htexts).
  by rewrite Hparse.
Qed.

Lemma generate_testcases_effects_witness :
  w_docs
    (generate_testcases ANSWERS_NOTHING WRITES_ALL "jobs/1/SRS.docx"
       "templates/TestCases_Template.xlsx" "out.xlsx" JOB).2
  = w_docs JOB
  /\ w_files
       (generate_testcases ANSWERS_NOTHING WRITES_ALL "jobs/1/SRS.docx"
          "templates/TestCases_Template.xlsx" "out.xlsx" JOB).2
     = w_files JOB.
Proof.
  destruct (generate_testcases_effects ANSWERS_NOTHING WRITES_ALL
              "jobs/1/SRS.docx" "templates/TestCases_Template.xlsx"
              "out.xlsx" JOB)
    as (_ & _ & Hfail & _).
  apply (Hfail (Exn TableNotFoundError)). reflexivity.
Defined.

Lemma generate_testcases_writes_witness :
  exists ws' : worksheet,
    (generate_testcases ANSWERS_SCENARIO_B WRITES_ALL "jobs/1/SRS.docx"
       "templates/TestCases_Template.xlsx" "out.xlsx" JOB).1
    = Done tt
    /\ ws' !! (6, 2) = Some (VStr "TC001")
    /\ exists (p : nat * nat) (label : string),
         p.1 < 6 /\ lower label = "component"
         /\ ws' !! p = Some (VStr (cut (label +:+ ": Login"))).
Proof.
  destruct (generate_testcases_writes ANSWERS_SCENARIO_B WRITES_ALL
              "jobs/1/SRS.docx"
              "templates/TestCases_Template.xlsx" "out.xlsx" JOB
              ["Login module"; "  "; "Must support IPv4 and IPv6"; ""]
              "sk-1" 200
              (Some [ {[ "type" := "text"; "text" := SCENARIO_B ]} ])
              [SCENARIO_B]
              [record FIELDS
                 "| TC001 | None | Valid login | Enter creds | Success | | |"]
              USED_WORKBOOK USED_SHEET
              (<[(2, 5) := VStr "Component: Login"]> USED_SHEET))
    as (ws' & Hrun & Hcells & Hheader).
  - reflexivity.
  - reflexivity.
  - discriminate.
  - reflexivity.
  - unfold is_error_status. lia.
  - reflexivity.
  - reflexivity.
  - reflexivity.
  - reflexivity.
  - reflexivity.
  - apply all_storable_spec. reflexivity.
  - reflexivity.
  - exists ws'. split; [by rewrite Hrun|]. split.
    + apply (Hcells 0
               (record FIELDS
                  "| TC001 | None | Valid login | Enter creds | Success | | |")
               0 "Test Case ID" "TC001"); reflexivity.
    + destruct Hheader as (p & label & _ & Hp & Hl & Hcell).
      * intros q _. apply USED_SHEET_label_above.
      * by exists p, label.
Defined.

Lemma generate_testcases_parse_failure_witness :
  (generate_testcases ANSWERS_NOTHING WRITES_ALL "jobs/1/SRS.docx"
     "templates/TestCases_Template.xlsx" "out.xlsx" JOB).1
  = Failed (Exn TableNotFoundError).
Proof.
  rewrite (generate_testcases_parse_failure ANSWERS_NOTHING WRITES_ALL
             "jobs/1/SRS.docx"
             "templates/TestCases_Template.xlsx" "out.xlsx" JOB
             ["Login module"; "  "; "Must support IPv4 and IPv6"; ""]
             "sk-1" 200 None [] TableNotFoundError); try reflexivity.
  - discriminate.
  - unfold is_error_status. lia.
Defined.

(** A run without its document, or without a key: it fails at once, no
    request is made and nothing at all changes. *)
Theorem generate_testcases_early_failure
    (service : request -> reply) (write_error : string -> option exn)
    (srs_path template_path output_path : string) (w : world) :
  w_docs w !! srs_path = None
  \/ w_environ w !! "ANTHROPIC_API_KEY" = None
  \/ w_environ w !! "ANTHROPIC_API_KEY" = Some "" ->
  exists e,
    generate_testcases service write_error srs_path template_path
      output_path w
    = (Failed e, w).
Proof.
  intros H. unfold generate_testcases, extract_srs_text.
  destruct (w_docs w !! srs_path) as [paragraphs|]; [|by eexists].
  unfold get_testcases_from_claude.
  destruct H as [H|[-> | ->]]; [done|..]; destruct w; by eexists.
Qed.

Lemma generate_testcases_early_failure_witness :
  exists e,
    generate_testcases ANSWERS_SCENARIO_B WRITES_ALL "jobs/2/SRS.docx"
      "templates/TestCases_Template.xlsx" "out.xlsx" JOB
    = (Failed e, JOB).
Proof.
  apply (generate_testcases_early_failure ANSWERS_SCENARIO_B WRITES_ALL
           "jobs/2/SRS.docx"
           "templates/TestCases_Template.xlsx" "out.xlsx" JOB).
  left. reflexivity.
Defined.
